(** * swag: the cross-package type-definition registry (packages.go)

    A shallow embedding of [PackagesDefinitions] and of its operations
    [CollectAstFile], [ParseTypes], [findTypeSpec],
    [findPackagePathFromImports], [FindTypeSpec] and [isAliasPkgName],
    followed by the properties of the harvest pass and of the resolver.

    Conventions of the embedding.
    - A Go map that may be [nil] is an [option (gmap K V)]: [None] is the
      nil map, which reads as empty, ignores [delete], and panics on a write.
    - A [*ast.File] is [option File]: [None] is the nil pointer, and a
      non-nil pointer is the (immutable) file together with its address,
      which is what pointer equality and pointer-keyed maps compare.
    - The records held by the maps ([*AstFileInfo], [*PackageDefinitions],
      [*TypeSpecDef]) have a single writer that always stores a fresh
      allocation, so they are held by value; the maps inside a
      [PackageDefinitions] are always made by [CollectAstFile].
    - A run-time panic (nil dereference, index out of range) is the
      outcome [Panics].
    - [range] over a Go map visits the entries in an unspecified order: the
      harvest takes the order of the visit as an argument, and the
      properties hold for every order. *)

From Stdlib Require Import Ascii String.
From stdpp Require Import base option list gmap strings fin_maps.

Local Open Scope string_scope.

(** ** The Go [strings] functions the file uses *)

Module strings.

(** [strings.ContainsRune(s, r)] for a one-byte rune. *)
Fixpoint ContainsRune (s : string) (r : ascii) : bool :=
  match s with
  | EmptyString => false
  | String c s' => if Ascii.eqb c r then true else ContainsRune s' r
  end.

(** [strings.Split(s, sep)] for a one-byte separator: all the substrings
    between separators, a single [s] when there is none. *)
Fixpoint Split (s : string) (sep : ascii) : list string :=
  match s with
  | EmptyString => [EmptyString]
  | String c s' =>
      if Ascii.eqb c sep then EmptyString :: Split s' sep
      else match Split s' sep with
           | p :: ps => String c p :: ps
           | [] => [String c EmptyString]
           end
  end.

Fixpoint TrimLeft (s : string) (cutset : ascii) : string :=
  match s with
  | EmptyString => EmptyString
  | String c s' => if Ascii.eqb c cutset then TrimLeft s' cutset else s
  end.

Fixpoint TrimRight (s : string) (cutset : ascii) : string :=
  match s with
  | EmptyString => EmptyString
  | String c s' =>
      match TrimRight s' cutset with
      | EmptyString => if Ascii.eqb c cutset then EmptyString
                       else String c EmptyString
      | t => String c t
      end
  end.

(** [strings.Trim(s, cutset)] for a one-byte cutset: [s] without its
    leading and trailing bytes equal to [cutset]. *)
Definition Trim (s : string) (cutset : ascii) : string :=
  TrimRight (TrimLeft s cutset) cutset.

End strings.

(** The two runes the file names: the dot that separates a qualifier from
    a type name, and the double quote trimmed off an import path literal. *)
Definition dot : ascii := "."%char.
Definition dquote : ascii := "034"%char.

(** ** Outcomes: a value, or a run-time panic *)

Inductive outcome (A : Type) : Type :=
  | Done (a : A)
  | Panics.
Arguments Done {A} a.
Arguments Panics {A}.

#[global] Instance outcome_ret : MRet outcome := @Done.
#[global] Instance outcome_bind : MBind outcome :=
  λ A B f m, match m with Done a => f a | Panics => Panics end.

(** ** The syntax tree, as far as the registry reads it *)

(** [*ast.ImportSpec]: [Name] is nil for an import without alias;
    [Path.Value] is the literal as written, quotes included. *)
Record ImportSpec := {
  ImportSpec_Name : option string;
  ImportSpec_Path : string;
}.

(** [ast.Expr]: the registry only asks whether it is an [*ast.Ident]. *)
Inductive Expr :=
  | Ident (name : string)
  | OtherExpr.

Record TypeSpec := {
  TypeSpec_Name : string;
  TypeSpec_Type : Expr;
}.

(** [ast.Spec] *)
Inductive Spec :=
  | SpecType (t : TypeSpec)
  | SpecOther.

(** [token.Token], for the [Tok] of a [GenDecl]. *)
Inductive Token := IMPORT | CONST | TYPE | VAR.

(** [ast.Decl] *)
Inductive Decl :=
  | GenDecl (Tok : Token) (Specs : list Spec)
  | OtherDecl.

(** [ast.File]. [File_addr] is the address of the file, for pointer
    equality; [Name], like the [Name] of a [TypeSpec], is an identifier the
    parser always sets, and is held by its string. *)
Record File := {
  File_addr : positive;
  File_Name : string;
  File_Imports : list ImportSpec;
  File_Decls : list Decl;
}.

Abbreviation FilePtr := (option File).

(** The key a pointer-keyed map compares: the address, [None] for nil. *)
Definition ptr_key (p : FilePtr) : option positive := File_addr <$> p.

#[global] Instance Token_eq_dec : EqDecision Token.
Proof. solve_decision. Defined.

(** ** The registry *)

Record AstFileInfo := {
  AstFileInfo_File : FilePtr;
  AstFileInfo_Path : string;
  AstFileInfo_PackagePath : string;
}.

Record TypeSpecDef := {
  TypeSpecDef_PkgPath : string;
  TypeSpecDef_File : File;
  TypeSpecDef_TypeSpec : TypeSpec;
}.

Record PackageDefinitions := {
  PackageDefinitions_Name : string;
  PackageDefinitions_Files : gmap string FilePtr;
  PackageDefinitions_TypeDefinitions : gmap string TypeSpecDef;
}.

(** An entry of [files] keeps the key pointer next to the value, since
    [range] hands back both. *)
Record PackagesDefinitions := {
  files : option (gmap (option positive) (FilePtr * AstFileInfo));
  packages : option (gmap string PackageDefinitions);
  uniqueDefinitions : option (gmap string TypeSpecDef);
}.

(** Reading [m[k]] from a possibly nil map. *)
Definition map_get {K V} `{Countable K} (m : option (gmap K V)) (k : K)
  : option V := m ≫= (.!! k).

Definition with_files (pkgs : PackagesDefinitions) fs : PackagesDefinitions :=
  {| files := fs; packages := packages pkgs;
     uniqueDefinitions := uniqueDefinitions pkgs |}.

Definition with_packages (pkgs : PackagesDefinitions) ps : PackagesDefinitions :=
  {| files := files pkgs; packages := ps;
     uniqueDefinitions := uniqueDefinitions pkgs |}.

Definition with_uniqueDefinitions (pkgs : PackagesDefinitions) us
  : PackagesDefinitions :=
  {| files := files pkgs; packages := packages pkgs; uniqueDefinitions := us |}.

(** Modelled from the spec: [fullTypeName] is declared outside packages.go;
    the key of the Global Index is the pair (package short name, type name)
    written as one short-name-qualified string, short name, dot, type name. *)
Definition fullTypeName (pkgName typeName : string) : string :=
  pkgName ++ String dot typeName.

(** Modelled from the spec: the method [Name] of [TypeSpecDef] is declared
    outside packages.go; it is the bare declared name. *)
Definition Name (t : TypeSpecDef) : string :=
  TypeSpec_Name (TypeSpecDef_TypeSpec t).

(** Modelled from the spec: the method [FullName] of [TypeSpecDef] is
    declared outside packages.go; it is the ambiguous key, the declaring
    unit's package short name with the declared name. *)
Definition FullName (t : TypeSpecDef) : string :=
  fullTypeName (File_Name (TypeSpecDef_File t)) (Name t).

Definition NewPackagesDefinitions : PackagesDefinitions :=
  {| files := Some ∅; packages := Some ∅; uniqueDefinitions := Some ∅ |}.

(** The zero value [PackagesDefinitions{}]: all the maps are nil. *)
Definition zeroStore : PackagesDefinitions :=
  {| files := None; packages := None; uniqueDefinitions := None |}.

Definition CollectAstFile (packageDir path : string) (astFile : FilePtr)
    (pkgs : PackagesDefinitions) : outcome PackagesDefinitions :=
  let info := {| AstFileInfo_File := astFile; AstFileInfo_Path := path;
                 AstFileInfo_PackagePath := packageDir |} in
  let pkgs := with_files pkgs
    (Some (<[ptr_key astFile := (astFile, info)]> (default ∅ (files pkgs)))) in
  if decide (String.length packageDir = 0) then Done pkgs
  else
    let registry := default ∅ (packages pkgs) in
    match registry !! packageDir with
    | Some pd =>
        let pd' := {| PackageDefinitions_Name := PackageDefinitions_Name pd;
                      PackageDefinitions_Files :=
                        <[path := astFile]> (PackageDefinitions_Files pd);
                      PackageDefinitions_TypeDefinitions :=
                        PackageDefinitions_TypeDefinitions pd |} in
        Done (with_packages pkgs (Some (<[packageDir := pd']> registry)))
    | None =>
        f ← from_option Done Panics astFile;
        let pd := {| PackageDefinitions_Name := File_Name f;
                     PackageDefinitions_Files := {[path := astFile]};
                     PackageDefinitions_TypeDefinitions := ∅ |} in
        Done (with_packages pkgs (Some (<[packageDir := pd]> registry)))
    end.

(** ** The supplied primitive-type capability

    [IsGolangPrimitiveType], [TransToValidSchemeType] and [PrimitiveSchema]
    are declared outside packages.go; the registry takes them as given. *)
Class Primitives := {
  IsGolangPrimitiveType : string → bool;
  SchemaRepr : Type;
  TransToValidSchemeType : string → string;
  PrimitiveSchema : string → SchemaRepr;
}.

Record Schema `{Primitives} := {
  Schema_PkgPath : string;
  Schema_Name : string;
  Schema_Schema : SchemaRepr;
}.

(** [map[*TypeSpecDef]*Schema]: every key is a fresh allocation, so the map
    is the list of its entries, the latest first. *)
Abbreviation ParsedSchemas := (list (TypeSpecDef * Schema)).

(** ** Loops with early exit *)

(** What the body of a [for] leaves behind: the state for the next
    iteration, a [return] out of the function, or a panic. *)
Inductive flow (S R : Type) : Type :=
  | Continue (s : S)
  | Return (r : R)
  | Panic.
Arguments Continue {S R} s.
Arguments Return {S R} r.
Arguments Panic {S R}.

Fixpoint forRange {A S R} (body : A → S → flow S R) (l : list A) (s : S)
  : flow S R :=
  match l with
  | [] => Continue s
  | x :: l' =>
      match body x s with
      | Continue s' => forRange body l' s'
      | Return r => Return r
      | Panic => Panic
      end
  end.

(** ** The harvest pass: [ParseTypes] *)

Section Harvest.
Context `{Primitives}.

Definition errUniqueDefinitionsNil : string :=
  "could not parse types, as unique definitions were nil".

(** Line 113: the write into the local map of the owning package. The
    record read from [packages] is nil when the map is nil or has no
    such key, and the field access then panics. *)
Definition writeTypeDefinition (typeSpecDef : TypeSpecDef)
    (pkgs : PackagesDefinitions) : outcome PackagesDefinitions :=
  match map_get (packages pkgs) (TypeSpecDef_PkgPath typeSpecDef) with
  | None => Panics
  | Some pd =>
      let pd' := {| PackageDefinitions_Name := PackageDefinitions_Name pd;
                    PackageDefinitions_Files := PackageDefinitions_Files pd;
                    PackageDefinitions_TypeDefinitions :=
                      <[Name typeSpecDef := typeSpecDef]>
                        (PackageDefinitions_TypeDefinitions pd) |} in
      Done (with_packages pkgs
              ((<[TypeSpecDef_PkgPath typeSpecDef := pd']>) <$> packages pkgs))
  end.

(** Lines 89 to 95: the schema of a declaration whose type is the name
    of a primitive. *)
Definition addPrimitiveSchema (typeSpecDef : TypeSpecDef)
    (parsedSchemas : ParsedSchemas) : ParsedSchemas :=
  match TypeSpec_Type (TypeSpecDef_TypeSpec typeSpecDef) with
  | Ident idt =>
      if IsGolangPrimitiveType idt then
        (typeSpecDef,
         {| Schema_PkgPath := TypeSpecDef_PkgPath typeSpecDef;
            Schema_Name := File_Name (TypeSpecDef_File typeSpecDef);
            Schema_Schema := PrimitiveSchema (TransToValidSchemeType idt) |})
        :: parsedSchemas
      else parsedSchemas
  | OtherExpr => parsedSchemas
  end.

(** Lines 83 to 113: one top-level type declaration. *)
Definition parseTypeSpec (astFile : File) (info : AstFileInfo)
    (typeSpec : TypeSpec) (st : PackagesDefinitions * ParsedSchemas)
  : flow (PackagesDefinitions * ParsedSchemas) (PackagesDefinitions * string) :=
  let '(pkgs, parsedSchemas) := st in
  let typeSpecDef := {| TypeSpecDef_PkgPath := AstFileInfo_PackagePath info;
                        TypeSpecDef_File := astFile;
                        TypeSpecDef_TypeSpec := typeSpec |} in
  let parsedSchemas := addPrimitiveSchema typeSpecDef parsedSchemas in
  match uniqueDefinitions pkgs with
  | None => Return (pkgs, errUniqueDefinitionsNil)
  | Some unique =>
      let fullName := FullName typeSpecDef in
      let write unique' :=
        match writeTypeDefinition typeSpecDef
                (with_uniqueDefinitions pkgs (Some unique')) with
        | Done pkgs' => Continue (pkgs', parsedSchemas)
        | Panics => Panic
        end in
      match unique !! fullName with
      | Some anotherTypeDef =>
          if decide (TypeSpecDef_PkgPath typeSpecDef
                     = TypeSpecDef_PkgPath anotherTypeDef)
          then Continue (pkgs, parsedSchemas)
          else write (delete fullName unique)
      | None => write (<[fullName := typeSpecDef]> unique)
      end
  end.

Definition parseSpec (astFile : File) (info : AstFileInfo) (astSpec : Spec)
    (st : PackagesDefinitions * ParsedSchemas) :=
  match astSpec with
  | SpecType typeSpec => parseTypeSpec astFile info typeSpec st
  | SpecOther => Continue st
  end.

Definition parseDecl (astFile : File) (info : AstFileInfo)
    (astDeclaration : Decl) (st : PackagesDefinitions * ParsedSchemas) :=
  match astDeclaration with
  | GenDecl TYPE Specs => forRange (parseSpec astFile info) Specs st
  | _ => Continue st
  end.

Definition parseFile (entry : FilePtr * AstFileInfo)
    (st : PackagesDefinitions * ParsedSchemas) :=
  match entry.1 with
  | None => Panic
  | Some astFile =>
      forRange (parseDecl astFile entry.2) (File_Decls astFile) st
  end.

(** [ParseTypes], visiting the entries of [files] in the given order. The
    result is the store as the pass left it, with the schemas or the
    error. *)
Definition ParseTypesIn (order : list (FilePtr * AstFileInfo))
    (pkgs : PackagesDefinitions)
  : outcome (PackagesDefinitions * (ParsedSchemas + string)) :=
  match forRange parseFile order (pkgs, []) with
  | Continue (pkgs', parsedSchemas) => Done (pkgs', inl parsedSchemas)
  | Return (pkgs', err) => Done (pkgs', inr err)
  | Panic => Panics
  end.

(** The entries of [files], in the order stdpp lists them. *)
Definition rangeFiles (pkgs : PackagesDefinitions)
  : list (FilePtr * AstFileInfo) :=
  (map_to_list (default ∅ (files pkgs))).*2.

(** [ParseTypes]: the pass over [files] in some order of its entries. *)
Definition ParseTypes (pkgs : PackagesDefinitions)
    (r : outcome (PackagesDefinitions * (ParsedSchemas + string))) : Prop :=
  ∃ order, order ≡ₚ rangeFiles pkgs ∧ ParseTypesIn order pkgs = r.

End Harvest.

(** ** The resolver *)

Definition findTypeSpec (pkgPath typeName : string)
    (pkgs : PackagesDefinitions) : option TypeSpecDef :=
  match packages pkgs with
  | None => None
  | Some registry =>
      match registry !! pkgPath with
      | Some pd => PackageDefinitions_TypeDefinitions pd !! typeName
      | None => None
      end
  end.

(** The package name the scans compare with: the part of [pkgName] before
    its first dot. *)
Definition qualifierOf (pkgName : string) : string :=
  if strings.ContainsRune pkgName dot
  then default EmptyString (head (strings.Split pkgName dot))
  else pkgName.

Definition importPath (imp : ImportSpec) : string :=
  strings.Trim (ImportSpec_Path imp) dquote.

(** The short name the registry holds for [path] is [pkgName]. *)
Definition registeredAs (pkgs : PackagesDefinitions) (path pkgName : string)
  : bool :=
  match map_get (packages pkgs) path with
  | Some pd => bool_decide (PackageDefinitions_Name pd = pkgName)
  | None => false
  end.

(** Lines 152 to 167: the first scan, which either returns a path or
    tells whether it has seen an anonymous import. *)
Fixpoint scanImports (pkgs : PackagesDefinitions) (pkgName : string)
    (imports : list ImportSpec) (hasAnonymousPkg : bool) : string + bool :=
  match imports with
  | [] => inr hasAnonymousPkg
  | imp :: rest =>
      match ImportSpec_Name imp with
      | Some name =>
          if decide (name = pkgName) then inl (importPath imp)
          else if decide (name = "_") then scanImports pkgs pkgName rest true
          else scanImports pkgs pkgName rest hasAnonymousPkg
      | None =>
          if registeredAs pkgs (importPath imp) pkgName
          then inl (importPath imp)
          else scanImports pkgs pkgName rest hasAnonymousPkg
      end
  end.

(** Lines 171 to 183: the second scan, over the anonymous imports. *)
Fixpoint scanAnonymous (pkgs : PackagesDefinitions) (pkgName : string)
    (imports : list ImportSpec) : option string :=
  match imports with
  | [] => None
  | imp :: rest =>
      match ImportSpec_Name imp with
      | None => scanAnonymous pkgs pkgName rest
      | Some name =>
          if decide (name = "_") then
            if registeredAs pkgs (importPath imp) pkgName
            then Some (importPath imp)
            else scanAnonymous pkgs pkgName rest
          else scanAnonymous pkgs pkgName rest
      end
  end.

Definition findPackagePathFromImports (pkgName : string) (file : FilePtr)
    (pkgs : PackagesDefinitions) : string :=
  match file with
  | None => EmptyString
  | Some f =>
      let pkgName := qualifierOf pkgName in
      match scanImports pkgs pkgName (File_Imports f) false with
      | inl path => path
      | inr hasAnonymousPkg =>
          if hasAnonymousPkg && bool_decide (is_Some (packages pkgs))
          then default EmptyString
                 (scanAnonymous pkgs pkgName (File_Imports f))
          else EmptyString
      end
  end.

(** [file == nil && file.Imports == nil]: with a nil [file] the second
    operand is evaluated and dereferences it. *)
Definition isAliasPkgName (file : FilePtr) (pkgName : string) : outcome bool :=
  match file with
  | None => Panics
  | Some f =>
      Done (existsb (λ pkg, bool_decide (ImportSpec_Name pkg = Some pkgName))
              (File_Imports f))
  end.

(** Lines 244 to 251: the scan of the dot-imports. *)
Fixpoint findInDotImports (typeName : string) (imports : list ImportSpec)
    (pkgs : PackagesDefinitions) : option TypeSpecDef :=
  match imports with
  | [] => None
  | imp :: rest =>
      if bool_decide (ImportSpec_Name imp = Some ".") then
        match findTypeSpec (importPath imp) typeName pkgs with
        | Some typeDef => Some typeDef
        | None => findInDotImports typeName rest pkgs
        end
      else findInDotImports typeName rest pkgs
  end.

(** [s[i]] on a slice: out of range panics. *)
Definition index {A} (l : list A) (i : nat) : outcome A :=
  from_option Done Panics (l !! i).

Section Resolver.
Context `{Primitives}.

(** Lines 216 to 233: a dotted reference once the shortcut has missed. *)
Definition findQualified (qualifier typeName : string) (f : File)
    (pkgs : PackagesDefinitions) : outcome (option TypeSpecDef) :=
  let pkgPath := findPackagePathFromImports qualifier (Some f) pkgs in
  pkgPath ←
    (if bool_decide (String.length pkgPath = 0)
        && bool_decide (qualifier = File_Name f)
     then from_option (λ e, Done (AstFileInfo_PackagePath e.2)) Panics
            (map_get (files pkgs) (ptr_key (Some f)))
     else Done pkgPath);
  if decide (pkgPath = EmptyString) then
    match map_get (packages pkgs) ("pkg/" ++ qualifier) with
    | None => Done (findTypeSpec pkgPath typeName pkgs)
    | Some pkgDefinition =>
        match PackageDefinitions_TypeDefinitions pkgDefinition !! typeName with
        | Some typeDef => Done (Some typeDef)
        | None => Done (findTypeSpec pkgPath typeName pkgs)
        end
    end
  else Done (findTypeSpec pkgPath typeName pkgs).

Definition FindTypeSpec (typeName : string) (file : FilePtr)
    (pkgs : PackagesDefinitions) : outcome (option TypeSpecDef) :=
  if IsGolangPrimitiveType typeName then Done None
  else
    match file with
    | None => Done (map_get (uniqueDefinitions pkgs) typeName)
    | Some f =>
        if strings.ContainsRune typeName dot then
          let parts := strings.Split typeName dot in
          part0 ← index parts 0;
          alias ← isAliasPkgName file part0;
          match (if (alias : bool) then None
                 else map_get (uniqueDefinitions pkgs) typeName) with
          | Some typeDef => Done (Some typeDef)
          | None =>
              part1 ← index parts 1;
              findQualified part0 part1 f pkgs
          end
        else
          match map_get (uniqueDefinitions pkgs)
                  (fullTypeName (File_Name f) typeName) with
          | Some typeDef => Done (Some typeDef)
          | None =>
              info ← from_option Done Panics
                       (map_get (files pkgs) (ptr_key file));
              match findTypeSpec (AstFileInfo_PackagePath info.2)
                      typeName pkgs with
              | Some typeDef => Done (Some typeDef)
              | None =>
                  Done (findInDotImports typeName (File_Imports f) pkgs)
              end
          end
    end.

End Resolver.

(** ** Vocabulary of the properties *)

(** The type declarations a [GenDecl] with token [TYPE] carries. *)
Definition typeSpecsOfDecl (d : Decl) : list TypeSpec :=
  match d with
  | GenDecl TYPE Specs =>
      omap (λ s, match s with SpecType t => Some t | SpecOther => None end) Specs
  | _ => []
  end.

(** The top-level type declarations of a file, in source order. *)
Definition typeSpecsOfFile (f : File) : list TypeSpec :=
  File_Decls f ≫= typeSpecsOfDecl.

(** One unit of work of the harvest: a type declaration with the file and
    the registration it was found under, or [None] for a nil file, whose
    declarations cannot be read. *)
Definition workOf (entry : FilePtr * AstFileInfo)
  : list (option (File * AstFileInfo * TypeSpec)) :=
  match entry.1 with
  | None => [None]
  | Some f => (λ t, Some (f, entry.2, t)) <$> typeSpecsOfFile f
  end.

(** The body of the harvest seen as one loop over the units of work. *)
Definition parseWork `{Primitives} (w : option (File * AstFileInfo * TypeSpec))
    (st : PackagesDefinitions * ParsedSchemas) :=
  match w with
  | None => Panic
  | Some w => parseTypeSpec w.1.1 w.1.2 w.2 st
  end.

(** The [TypeSpecDef] the harvest builds for a declaration (lines 83-87). *)
Definition definitionOf (w : File * AstFileInfo * TypeSpec) : TypeSpecDef :=
  {| TypeSpecDef_PkgPath := AstFileInfo_PackagePath w.1.2;
     TypeSpecDef_File := w.1.1;
     TypeSpecDef_TypeSpec := w.2 |}.

(** The collection is free of conflicts: two declarations with the same
    index key have the same owning package path. *)
Definition NonConflicting (ws : list (option (File * AstFileInfo * TypeSpec)))
  : Prop :=
  ∀ w1 w2, Some w1 ∈ ws → Some w2 ∈ ws →
    FullName (definitionOf w1) = FullName (definitionOf w2) →
    TypeSpecDef_PkgPath (definitionOf w1) = TypeSpecDef_PkgPath (definitionOf w2).

(** Every unit of the collection can be harvested: its file is not nil and,
    if it declares a type, its package path has a record in the registry. *)
Definition Harvestable (pkgs : PackagesDefinitions)
    (entry : FilePtr * AstFileInfo) : Prop :=
  ∃ f, entry.1 = Some f ∧
       (typeSpecsOfFile f ≠ [] →
        is_Some (map_get (packages pkgs) (AstFileInfo_PackagePath entry.2))).

(** The stores the exposed operations build, from a fresh store or from
    the zero value. *)
Inductive Reachable `{Primitives} : PackagesDefinitions → Prop :=
  | Reachable_new : Reachable NewPackagesDefinitions
  | Reachable_zero : Reachable zeroStore
  | Reachable_collect pkgs packageDir path astFile pkgs' :
      Reachable pkgs →
      CollectAstFile packageDir path astFile pkgs = Done pkgs' →
      Reachable pkgs'
  | Reachable_harvest pkgs pkgs' out :
      Reachable pkgs →
      ParseTypes pkgs (Done (pkgs', out)) →
      Reachable pkgs'.

(** The type name of a dotted reference: the second segment. *)
Definition typeNameOf (reference : string) : string :=
  default EmptyString (strings.Split reference dot !! 1).

(** The import the first scan stops at: a named one whose alias is the
    package name, or one without alias whose path the registry knows under
    that name. *)
Definition matchesImport (pkgs : PackagesDefinitions) (pkgName : string)
    (imp : ImportSpec) : bool :=
  match ImportSpec_Name imp with
  | Some name => bool_decide (name = pkgName)
  | None => registeredAs pkgs (importPath imp) pkgName
  end.

(** The import the second scan stops at: an anonymous one whose path the
    registry knows under the package name. *)
Definition matchesAnonymous (pkgs : PackagesDefinitions) (pkgName : string)
    (imp : ImportSpec) : bool :=
  bool_decide (ImportSpec_Name imp = Some "_")
  && registeredAs pkgs (importPath imp) pkgName.

(** The amended precedence of the import scans, in the words of the
    specification: the first import in declaration order that matches as
    named or as unnamed, else the first matching anonymous import, else
    the empty path. *)
Definition resolveQualifier_spec (pkgs : PackagesDefinitions)
    (pkgName : string) (imports : list ImportSpec) : string :=
  match find (matchesImport pkgs pkgName) imports with
  | Some imp => importPath imp
  | None =>
      match find (matchesAnonymous pkgs pkgName) imports with
      | Some imp => importPath imp
      | None => EmptyString
      end
  end.

(** ** Vocabulary of the proofs *)

Section StepVocabulary.
Context `{Primitives}.

(** The four ways a step can go once the index is initialized. *)
Inductive StepCase (w : File * AstFileInfo * TypeSpec)
  (pkgs : PackagesDefinitions) (ps : ParsedSchemas)
  (unique : gmap string TypeSpecDef)
: flow (PackagesDefinitions * ParsedSchemas) (PackagesDefinitions * string)
  → Prop :=
| StepCase_repeat another :
    unique !! FullName (definitionOf w) = Some another →
    TypeSpecDef_PkgPath another = TypeSpecDef_PkgPath (definitionOf w) →
    StepCase w pkgs ps unique
      (Continue (pkgs, addPrimitiveSchema (definitionOf w) ps))
| StepCase_write unique' pkgs' :
    (unique !! FullName (definitionOf w) = None
       ∧ unique' = <[FullName (definitionOf w) := definitionOf w]> unique)
    ∨ ((∃ another, unique !! FullName (definitionOf w) = Some another
           ∧ TypeSpecDef_PkgPath another
             ≠ TypeSpecDef_PkgPath (definitionOf w))
       ∧ unique' = delete (FullName (definitionOf w)) unique) →
    writeTypeDefinition (definitionOf w)
      (with_uniqueDefinitions pkgs (Some unique')) = Done pkgs' →
    StepCase w pkgs ps unique
      (Continue (pkgs', addPrimitiveSchema (definitionOf w) ps))
| StepCase_panic :
    map_get (packages pkgs) (TypeSpecDef_PkgPath (definitionOf w)) = None →
    StepCase w pkgs ps unique Panic.

(** The pass neither creates nor removes a record of the registry, keeps
  [files], and keeps the index initialized; it never returns the error
  once the index is initialized. *)
Definition SameShape (pkgs : PackagesDefinitions)
  (st : PackagesDefinitions * ParsedSchemas) : Prop :=
files st.1 = files pkgs
∧ is_Some (uniqueDefinitions st.1)
∧ ∀ path, is_Some (map_get (packages st.1) path)
          ↔ is_Some (map_get (packages pkgs) path).

End StepVocabulary.

(** No record of the registry and no entry of the index is for the empty
    package path. *)
Definition NoEmptyPath (pkgs : PackagesDefinitions) : Prop :=
  map_get (packages pkgs) EmptyString = None
  ∧ ∀ k e, map_get (uniqueDefinitions pkgs) k = Some e →
           TypeSpecDef_PkgPath e ≠ EmptyString.

(** The index holds an entry under the key of the declaration, owned by
    the package of the declaration. *)
Definition Indexed (pkgs : PackagesDefinitions)
    (w : File * AstFileInfo * TypeSpec) : Prop :=
  ∃ e, map_get (uniqueDefinitions pkgs) (FullName (definitionOf w)) = Some e
       ∧ TypeSpecDef_PkgPath e = TypeSpecDef_PkgPath (definitionOf w).

(** Every entry of the index under the key of a declaration of the
    collection is owned by the package of that declaration. *)
Definition Agrees (ws : list (option (File * AstFileInfo * TypeSpec)))
    (pkgs : PackagesDefinitions) : Prop :=
  ∀ w e, Some w ∈ ws →
    map_get (uniqueDefinitions pkgs) (FullName (definitionOf w)) = Some e →
    TypeSpecDef_PkgPath e = TypeSpecDef_PkgPath (definitionOf w).

(** The body of [isAliasPkgName] on a file that is not nil. *)
Definition declaresAlias (f : File) (pkgName : string) : bool :=
  existsb (λ pkg, bool_decide (ImportSpec_Name pkg = Some pkgName))
    (File_Imports f).

(** ** Sample data for the examples *)

(** The value of an outcome that is known not to panic. *)
Definition theStore (o : outcome PackagesDefinitions) : PackagesDefinitions :=
  match o with
  | Done pkgs => pkgs
  | Panics => NewPackagesDefinitions
  end.

Definition samplePrimitives : Primitives :=
  {| IsGolangPrimitiveType s :=
       bool_decide (s ∈ ["bool"; "int"; "int64"; "float64"; "string"]);
     SchemaRepr := string;
     TransToValidSchemeType s := if decide (s = "int") then "integer" else s;
     PrimitiveSchema s := s |}.

(** An import path literal: the path between double quotes. *)
Definition quoted (s : string) : string :=
  String dquote (s ++ String dquote EmptyString).

Definition unnamedImport (path : string) : ImportSpec :=
  {| ImportSpec_Name := None; ImportSpec_Path := quoted path |}.

Definition namedImport (alias path : string) : ImportSpec :=
  {| ImportSpec_Name := Some alias; ImportSpec_Path := quoted path |}.

Definition typeDecl (name : string) (ty : Expr) : Decl :=
  GenDecl TYPE [SpecType {| TypeSpec_Name := name; TypeSpec_Type := ty |}].

Definition registration (f : File) (path packageDir : string)
  : FilePtr * AstFileInfo :=
  (Some f, {| AstFileInfo_File := Some f; AstFileInfo_Path := path;
              AstFileInfo_PackagePath := packageDir |}).

(** Two packages with the short name models, each declaring User. *)
Definition appUser : File :=
  {| File_addr := 1; File_Name := "models"; File_Imports := [];
     File_Decls := [typeDecl "User" OtherExpr] |}.

Definition libUser : File :=
  {| File_addr := 2; File_Name := "models"; File_Imports := [];
     File_Decls := [typeDecl "User" (Ident "string")] |}.

Definition appHandlers : File :=
  {| File_addr := 3; File_Name := "handlers";
     File_Imports := [unnamedImport "app/models"]; File_Decls := [] |}.

Definition libHandlers : File :=
  {| File_addr := 4; File_Name := "handlers";
     File_Imports := [unnamedImport "lib/models"]; File_Decls := [] |}.

Definition modelsStore : outcome PackagesDefinitions :=
  CollectAstFile "app/models" "app/models/user.go" (Some appUser)
    NewPackagesDefinitions
  ≫= CollectAstFile "lib/models" "lib/models/user.go" (Some libUser).

(** The declarations of the two files, as the harvest meets them. *)
Definition appUserDecl : File * AstFileInfo * TypeSpec :=
  (appUser, (registration appUser "app/models/user.go" "app/models").2,
   {| TypeSpec_Name := "User"; TypeSpec_Type := OtherExpr |}).

Definition libUserDecl : File * AstFileInfo * TypeSpec :=
  (libUser, (registration libUser "lib/models/user.go" "lib/models").2,
   {| TypeSpec_Name := "User"; TypeSpec_Type := Ident "string" |}).


(** One package whose two files both declare Config, as files picked by
    build constraints do. *)
Definition cfgLinux : File :=
  {| File_addr := 5; File_Name := "cfg"; File_Imports := [];
     File_Decls := [typeDecl "Config" OtherExpr] |}.

Definition cfgWindows : File :=
  {| File_addr := 6; File_Name := "cfg"; File_Imports := [];
     File_Decls := [typeDecl "Config" (Ident "string")] |}.

Definition cfgStore : outcome PackagesDefinitions :=
  CollectAstFile "app/cfg" "app/cfg/cfg_linux.go" (Some cfgLinux)
    NewPackagesDefinitions
  ≫= CollectAstFile "app/cfg" "app/cfg/cfg_windows.go" (Some cfgWindows).

Definition cfgLinuxDecl : File * AstFileInfo * TypeSpec :=
  (cfgLinux, (registration cfgLinux "app/cfg/cfg_linux.go" "app/cfg").2,
   {| TypeSpec_Name := "Config"; TypeSpec_Type := OtherExpr |}).

Definition cfgWindowsDecl : File * AstFileInfo * TypeSpec :=
  (cfgWindows, (registration cfgWindows "app/cfg/cfg_windows.go" "app/cfg").2,
   {| TypeSpec_Name := "Config"; TypeSpec_Type := Ident "string" |}).

(** The store and the schemas a first harvest of [cfgStore] leaves. *)
Definition cfgHarvested : PackagesDefinitions * ParsedSchemas :=
  match ParseTypesIn (H:=samplePrimitives) (rangeFiles (theStore cfgStore))
          (theStore cfgStore) with
  | Done (pkgs, inl out) => (pkgs, out)
  | _ => (NewPackagesDefinitions, [])
  end.

(** The store and the schemas a harvest of [modelsStore] leaves. *)
Definition modelsHarvested : PackagesDefinitions * ParsedSchemas :=
  match ParseTypesIn (H:=samplePrimitives) (rangeFiles (theStore modelsStore))
          (theStore modelsStore) with
  | Done (pkgs, inl out) => (pkgs, out)
  | _ => (NewPackagesDefinitions, [])
  end.

(** A standalone file registered with no package path. *)
Definition standalone : File :=
  {| File_addr := 7; File_Name := "main"; File_Imports := [];
     File_Decls := [OtherDecl; typeDecl "Options" OtherExpr] |}.

Definition standaloneStore : outcome PackagesDefinitions :=
  CollectAstFile EmptyString "main.go" (Some standalone) NewPackagesDefinitions.

(** The zero value of the store after it has collected a file that
    declares no type. *)
Definition handlersStore : outcome PackagesDefinitions :=
  CollectAstFile "app/handlers" "app/handlers/user.go" (Some appHandlers)
    zeroStore.

(** A file that imports app/models without alias and gives the alias
    models to another path, declared after it. *)
Definition shadowing : File :=
  {| File_addr := 8; File_Name := "handlers";
     File_Imports := [unnamedImport "app/models"; namedImport "models" "lib/orm"];
     File_Decls := [] |}.

(** A file that gives the alias models to lib/models before it imports
    app/models without alias. *)
Definition aliasing : File :=
  {| File_addr := 10; File_Name := "handlers";
     File_Imports := [unnamedImport "vendor/pq"; namedImport "models" "lib/models";
                      unnamedImport "app/models"];
     File_Decls := [] |}.

(** A file whose only imports are anonymous. *)
Definition drivers : File :=
  {| File_addr := 9; File_Name := "main";
     File_Imports := [namedImport "_" "vendor/pq"; namedImport "_" "app/models"];
     File_Decls := [] |}.


(** ** [RangeFiles] *)

(** [RangeFiles], visiting the entries of [files] in the given order. The
    handler is a closure: it carries a state of its own, which a call may
    update, and returns an error or nil; the first error ends the visit. *)
Fixpoint RangeFilesIn {S E : Type} (order : list (FilePtr * AstFileInfo))
    (handle : string → FilePtr → S → S * option E) (s : S) : S * option E :=
  match order with
  | [] => (s, None)
  | entry :: rest =>
      match handle (AstFileInfo_Path entry.2) entry.1 s with
      | (s', None) => RangeFilesIn rest handle s'
      | (s', Some err) => (s', Some err)
      end
  end.

(** [RangeFiles]: the visit of [files] in some order of its entries. *)
Definition RangeFiles {S E : Type} (pkgs : PackagesDefinitions)
    (handle : string → FilePtr → S → S * option E) (s : S)
    (r : S * option E) : Prop :=
  ∃ order, order ≡ₚ rangeFiles pkgs ∧ RangeFilesIn order handle s = r.

(** ** Vocabulary of the further properties *)

(** The schema entry the harvest emits for a declaration: one when its
    type is the name of a primitive, none otherwise. *)
Definition schemaEntry `{Primitives}
    (w : option (File * AstFileInfo * TypeSpec))
  : option (TypeSpecDef * Schema) :=
  w ← w;
  match TypeSpec_Type w.2 with
  | Ident idt =>
      if IsGolangPrimitiveType idt then
        Some (definitionOf w,
              {| Schema_PkgPath := AstFileInfo_PackagePath w.1.2;
                 Schema_Name := File_Name w.1.1;
                 Schema_Schema := PrimitiveSchema (TransToValidSchemeType idt) |})
      else None
  | OtherExpr => None
  end.

(** Every entry of the index sits under the key of its own definition. *)
Definition KeyedIndex (pkgs : PackagesDefinitions) : Prop :=
  ∀ k e, map_get (uniqueDefinitions pkgs) k = Some e → FullName e = k.

(** Every entry of a local map is owned by the package of the map and
    sits under its own declared name. *)
Definition OwnedLocal (pkgs : PackagesDefinitions) : Prop :=
  ∀ pkgPath typeName d,
    findTypeSpec pkgPath typeName pkgs = Some d →
    TypeSpecDef_PkgPath d = pkgPath ∧ Name d = typeName.

(** The owning package of every entry of the index has a definition under
    the declared name of the entry. *)
Definition BackedIndex (pkgs : PackagesDefinitions) : Prop :=
  ∀ k e, map_get (uniqueDefinitions pkgs) k = Some e →
         is_Some (findTypeSpec (TypeSpecDef_PkgPath e) (Name e) pkgs).

(** The first dot-import, in declaration order, whose package declares the
    type name. *)
Definition firstDotImport (typeName : string) (imports : list ImportSpec)
    (pkgs : PackagesDefinitions) : option ImportSpec :=
  find (λ imp, bool_decide (ImportSpec_Name imp = Some ".")
               && bool_decide (is_Some (findTypeSpec (importPath imp)
                                          typeName pkgs)))
    imports.

(** A second file of the package app/models. *)
Definition appOrder : File :=
  {| File_addr := 11; File_Name := "models_test"; File_Imports := [];
     File_Decls := [typeDecl "Order" (Ident "int")] |}.

(** A file that dot-imports lib/models and app/models. *)
Definition dotting : File :=
  {| File_addr := 12; File_Name := "handlers";
     File_Imports := [namedImport "." "vendor/pq"; namedImport "." "lib/models";
                      namedImport "." "app/models"];
     File_Decls := [] |}.

(** The two packages named models and the dot-importing file, harvested. *)
Definition dottingStore : outcome PackagesDefinitions :=
  modelsStore
  ≫= CollectAstFile "app/handlers" "app/handlers/dot.go" (Some dotting).

Definition dottingHarvested : PackagesDefinitions * ParsedSchemas :=
  match ParseTypesIn (H:=samplePrimitives) (rangeFiles (theStore dottingStore))
          (theStore dottingStore) with
  | Done (pkgs, inl out) => (pkgs, out)
  | _ => (NewPackagesDefinitions, [])
  end.

(** Every entry of the index sits under its own key, comes from a file
    whose package name has no dot, and is backed by the local map of its
    owning package. *)
Definition SoundIndex (pkgs : PackagesDefinitions) : Prop :=
  ∀ k e, map_get (uniqueDefinitions pkgs) k = Some e →
    FullName e = k
    ∧ strings.ContainsRune (File_Name (TypeSpecDef_File e)) dot = false
    ∧ is_Some (findTypeSpec (TypeSpecDef_PkgPath e) (Name e) pkgs).

(** ** Sample data for keys declared more than once *)

(** A third package with the short name models that declares User. *)
Definition extUser : File :=
  {| File_addr := 13; File_Name := "models"; File_Imports := [];
     File_Decls := [typeDecl "User" (Ident "int")] |}.

Definition extUserDecl : File * AstFileInfo * TypeSpec :=
  (extUser, (registration extUser "ext/models/user.go" "ext/models").2,
   {| TypeSpec_Name := "User"; TypeSpec_Type := Ident "int" |}).












(** ** The model at work *)

Example Split_reference :
  strings.Split "models.User" dot = ["models"; "User"].
Proof. reflexivity. Qed.

Example Split_without_separator : strings.Split "User" dot = ["User"].
Proof. reflexivity. Qed.

Example Trim_import_literal :
  strings.Trim (quoted "app/models") dquote = "app/models".
Proof. reflexivity. Qed.

(** A reference to a primitive name is never resolved. *)
Example resolve_primitive :
  FindTypeSpec (H:=samplePrimitives) "string" (Some appHandlers)
    modelsHarvested.1 = Done None.
Proof. vm_compute. reflexivity. Qed.

(** The unaliased import of app/models resolves models.User to the
    definition of app/models. *)
Example resolve_through_import :
  FindTypeSpec (H:=samplePrimitives) "models.User" (Some appHandlers)
    modelsHarvested.1 = Done (Some (definitionOf appUserDecl)).
Proof. vm_compute. reflexivity. Qed.

(** A qualifier that only an anonymous import can answer resolves through
    the second scan. *)
Example resolve_anonymous_import :
  findPackagePathFromImports "models" (Some drivers) modelsHarvested.1
  = "app/models".
Proof. vm_compute. reflexivity. Qed.

(** A bare reference from a file of the package is found in its local map. *)
Example resolve_bare_name :
  FindTypeSpec (H:=samplePrimitives) "User" (Some libUser) modelsHarvested.1
  = Done (Some (definitionOf libUserDecl)).
Proof. vm_compute. reflexivity. Qed.

(** A context that was never collected has no entry in [files]: asking for
    its package path dereferences nil. *)
Example resolve_own_package_unregistered :
  FindTypeSpec (H:=samplePrimitives) "handlers.User" (Some libHandlers)
    modelsHarvested.1 = Panics.
Proof. vm_compute. reflexivity. Qed.

(** The harvest emits one schema, for the one declaration whose type is a
    primitive name. *)
Example harvest_primitive_schema :
  modelsHarvested.2
  = [(definitionOf libUserDecl,
      {| Schema_PkgPath := "lib/models"; Schema_Name := "models";
         Schema_Schema := PrimitiveSchema (Primitives:=samplePrimitives)
                            "string" |})].
Proof. vm_compute. reflexivity. Qed.

(** ** Facts about the string functions *)

Lemma Split_cons (s : string) (sep : ascii) :
  ∃ p ps, strings.Split s sep = p :: ps.
Proof.
  induction s as [|c s IH]; simpl; [by eauto|].
  destruct (Ascii.eqb c sep); [by eauto|].
  destruct IH as (p & ps & ->); eauto.
Qed.

Lemma Split_two (s : string) (sep : ascii) :
  strings.ContainsRune s sep = true →
  ∃ p0 p1 ps, strings.Split s sep = p0 :: p1 :: ps.
Proof.
  induction s as [|c s IH]; simpl; [done|].
  destruct (Ascii.eqb c sep).
  - intros _. destruct (Split_cons s sep) as (p & ps & ->); eauto.
  - intros Hc. destruct (IH Hc) as (p0 & p1 & ps & ->); eauto.
Qed.

Lemma qualifierOf_head (s : string) :
  strings.ContainsRune s dot = true →
  strings.Split s dot !! 0 = Some (qualifierOf s).
Proof.
  intros Hc. unfold qualifierOf. rewrite Hc.
  by destruct (Split_two _ _ Hc) as (p0 & p1 & ps & ->).
Qed.

Lemma typeNameOf_second (s : string) :
  strings.ContainsRune s dot = true →
  strings.Split s dot !! 1 = Some (typeNameOf s).
Proof.
  intros Hc. unfold typeNameOf.
  by destruct (Split_two _ _ Hc) as (p0 & p1 & ps & ->).
Qed.



(** ** Facts about loops *)

Lemma forRange_app {A S R} (body : A → S → flow S R) (l1 l2 : list A) (s : S) :
  forRange body (l1 ++ l2) s =
  match forRange body l1 s with
  | Continue s' => forRange body l2 s'
  | Return r => Return r
  | Panic => Panic
  end.
Proof.
  revert s. induction l1 as [|x l1 IH]; intros s; simpl; [done|].
  destruct (body x s); auto.
Qed.

Lemma forRange_bind {A B S R} (body : A → S → flow S R) (inner : B → S → flow S R)
    (expand : A → list B) (l : list A) (s : S) :
  (∀ x s, body x s = forRange inner (expand x) s) →
  forRange body l s = forRange inner (l ≫= expand) s.
Proof.
  intros Hbody. revert s. induction l as [|x l IH]; intros s; simpl; [done|].
  rewrite forRange_app, Hbody. destruct (forRange inner (expand x) s); auto.
Qed.

Lemma forRange_omap {A B S R} (body : A → S → flow S R) (inner : B → S → flow S R)
    (pick : A → option B) (l : list A) (s : S) :
  (∀ x s, body x s = from_option (λ y, inner y s) (Continue s) (pick x)) →
  forRange body l s = forRange inner (omap pick l) s.
Proof.
  intros Hbody. revert s. induction l as [|x l IH]; intros s; simpl; [done|].
  rewrite Hbody. destruct (pick x) as [y|]; simpl; [|done].
  destruct (inner y s); auto.
Qed.

Lemma forRange_fmap {A B S R} (inner : B → S → flow S R) (g : A → B)
    (l : list A) (s : S) :
  forRange inner (g <$> l) s = forRange (λ x, inner (g x)) l s.
Proof.
  revert s. induction l as [|x l IH]; intros s; simpl; [done|].
  destruct (inner (g x) s); auto.
Qed.

(** A loop keeps what each iteration keeps: an invariant of the state when
    it runs through, a property of the value when it returns early. *)
Lemma forRange_invariant {A S R} (body : A → S → flow S R) (I : S → Prop)
    (Qr : R → Prop) (Qp : Prop) (l : list A) (s : S) :
  I s →
  (∀ x s, x ∈ l → I s →
     match body x s with
     | Continue s' => I s' | Return r => Qr r | Panic => Qp
     end) →
  match forRange body l s with
  | Continue s' => I s' | Return r => Qr r | Panic => Qp
  end.
Proof.
  revert s. induction l as [|x l IH]; intros s Hs Hstep; simpl; [done|].
  pose proof (Hstep x s (list_elem_of_here _ _) Hs) as Hx.
  destruct (body x s) as [s'| |]; try done.
  apply IH; [done|]. intros y t Hy. apply Hstep. by apply list_elem_of_further.
Qed.

(** ** The harvest as one loop over the declarations *)

Section HarvestFacts.
Context `{Primitives}.

Lemma parseDecl_flat astFile info d st :
  parseDecl astFile info d st
  = forRange (parseTypeSpec astFile info) (typeSpecsOfDecl d) st.
Proof.
  destruct d as [[] specs|]; simpl; try done.
  apply forRange_omap. by intros [t|] s.
Qed.

Lemma parseFile_flat entry st :
  parseFile entry st = forRange parseWork (workOf entry) st.
Proof.
  unfold parseFile, workOf. destruct entry as [[f|] info]; simpl; [|done].
  rewrite forRange_fmap. unfold typeSpecsOfFile.
  apply forRange_bind. intros d s. apply parseDecl_flat.
Qed.

Lemma forRange_parseFile order st :
  forRange parseFile order st = forRange parseWork (order ≫= workOf) st.
Proof. apply forRange_bind. intros. apply parseFile_flat. Qed.

End HarvestFacts.

(** ** One step of the harvest *)

Section StepFacts.
Context `{Primitives}.
Implicit Types (pkgs : PackagesDefinitions) (ps : ParsedSchemas).
Implicit Types (astFile : File) (info : AstFileInfo) (typeSpec : TypeSpec).

Lemma writeTypeDefinition_Done d pkgs pkgs' :
  writeTypeDefinition d pkgs = Done pkgs' →
  ∃ registry pd,
    packages pkgs = Some registry ∧
    registry !! TypeSpecDef_PkgPath d = Some pd ∧
    files pkgs' = files pkgs ∧
    uniqueDefinitions pkgs' = uniqueDefinitions pkgs ∧
    packages pkgs' =
      Some (<[TypeSpecDef_PkgPath d :=
               {| PackageDefinitions_Name := PackageDefinitions_Name pd;
                  PackageDefinitions_Files := PackageDefinitions_Files pd;
                  PackageDefinitions_TypeDefinitions :=
                    <[Name d := d]> (PackageDefinitions_TypeDefinitions pd) |}]>
              registry).
Proof.
  unfold writeTypeDefinition, map_get.
  destruct (packages pkgs) as [registry|] eqn:Hreg; simpl; [|done].
  destruct (registry !! TypeSpecDef_PkgPath d) as [pd|] eqn:Hpd; [|done].
  intros [= <-]. by exists registry, pd.
Qed.

Lemma writeTypeDefinition_Panics d pkgs :
  writeTypeDefinition d pkgs = Panics ↔
  map_get (packages pkgs) (TypeSpecDef_PkgPath d) = None.
Proof.
  unfold writeTypeDefinition.
  by destruct (map_get (packages pkgs) (TypeSpecDef_PkgPath d)).
Qed.

(** After the write, the registry answers the declared name of the
    owning package with the definition written. *)
Lemma writeTypeDefinition_findTypeSpec d pkgs pkgs' :
  writeTypeDefinition d pkgs = Done pkgs' →
  findTypeSpec (TypeSpecDef_PkgPath d) (Name d) pkgs' = Some d.
Proof.
  intros (registry & pd & _ & _ & _ & _ & Hp)%writeTypeDefinition_Done.
  unfold findTypeSpec. rewrite Hp, lookup_insert_eq. simpl.
  by rewrite lookup_insert_eq.
Qed.

Lemma parseTypeSpec_nil astFile info typeSpec pkgs ps :
  uniqueDefinitions pkgs = None →
  parseTypeSpec astFile info typeSpec (pkgs, ps)
  = Return (pkgs, errUniqueDefinitionsNil).
Proof. intros Hu. unfold parseTypeSpec. by rewrite Hu. Qed.

Lemma parseTypeSpec_repeat astFile info typeSpec pkgs ps unique another :
  uniqueDefinitions pkgs = Some unique →
  unique !! FullName (definitionOf (astFile, info, typeSpec)) = Some another →
  TypeSpecDef_PkgPath another
  = TypeSpecDef_PkgPath (definitionOf (astFile, info, typeSpec)) →
  parseTypeSpec astFile info typeSpec (pkgs, ps)
  = Continue (pkgs, addPrimitiveSchema (definitionOf (astFile, info, typeSpec)) ps).
Proof.
  intros Hu Hk Hp. unfold parseTypeSpec.
  change {| TypeSpecDef_PkgPath := AstFileInfo_PackagePath info;
            TypeSpecDef_File := astFile; TypeSpecDef_TypeSpec := typeSpec |}
    with (definitionOf (astFile, info, typeSpec)).
  rewrite Hu, Hk. by rewrite decide_True.
Qed.

Lemma parseTypeSpec_collision astFile info typeSpec pkgs ps unique another :
  uniqueDefinitions pkgs = Some unique →
  unique !! FullName (definitionOf (astFile, info, typeSpec)) = Some another →
  TypeSpecDef_PkgPath another
  ≠ TypeSpecDef_PkgPath (definitionOf (astFile, info, typeSpec)) →
  parseTypeSpec astFile info typeSpec (pkgs, ps)
  = match writeTypeDefinition (definitionOf (astFile, info, typeSpec))
            (with_uniqueDefinitions pkgs
               (Some (delete (FullName (definitionOf (astFile, info, typeSpec)))
                        unique))) with
    | Done pkgs' =>
        Continue (pkgs', addPrimitiveSchema (definitionOf (astFile, info, typeSpec)) ps)
    | Panics => Panic
    end.
Proof.
  intros Hu Hk Hp. unfold parseTypeSpec.
  change {| TypeSpecDef_PkgPath := AstFileInfo_PackagePath info;
            TypeSpecDef_File := astFile; TypeSpecDef_TypeSpec := typeSpec |}
    with (definitionOf (astFile, info, typeSpec)).
  rewrite Hu, Hk. by rewrite decide_False.
Qed.

Lemma parseTypeSpec_fresh astFile info typeSpec pkgs ps unique :
  uniqueDefinitions pkgs = Some unique →
  unique !! FullName (definitionOf (astFile, info, typeSpec)) = None →
  parseTypeSpec astFile info typeSpec (pkgs, ps)
  = match writeTypeDefinition (definitionOf (astFile, info, typeSpec))
            (with_uniqueDefinitions pkgs
               (Some (<[FullName (definitionOf (astFile, info, typeSpec))
                        := definitionOf (astFile, info, typeSpec)]> unique))) with
    | Done pkgs' =>
        Continue (pkgs', addPrimitiveSchema (definitionOf (astFile, info, typeSpec)) ps)
    | Panics => Panic
    end.
Proof.
  intros Hu Hk. unfold parseTypeSpec.
  change {| TypeSpecDef_PkgPath := AstFileInfo_PackagePath info;
            TypeSpecDef_File := astFile; TypeSpecDef_TypeSpec := typeSpec |}
    with (definitionOf (astFile, info, typeSpec)).
  by rewrite Hu, Hk.
Qed.

End StepFacts.

(** ** The write into the local map *)

(** C3, refuted as stated. The package app/cfg has two files that both
    declare Config. Harvested in the order linux, windows, the declaration
    of the windows file is processed (its primitive schema is in the
    output) and is the last one processed, yet the local map of app/cfg
    does not hold its definition under Config: the index already had the
    key with the same owning package path, and the step was skipped. *)
Lemma C3_counterexample :
  ∃ pkgs out,
    ParseTypes (H:=samplePrimitives) (theStore cfgStore) (Done (pkgs, inl out))
    ∧ ParseTypesIn (H:=samplePrimitives)
        [registration cfgLinux "app/cfg/cfg_linux.go" "app/cfg";
         registration cfgWindows "app/cfg/cfg_windows.go" "app/cfg"]
        (theStore cfgStore) = Done (pkgs, inl out)
    ∧ out.*1 = [definitionOf cfgWindowsDecl]
    ∧ findTypeSpec "app/cfg" "Config" pkgs ≠ Some (definitionOf cfgWindowsDecl).
Proof.
  eexists _, _. split; [|split; [vm_compute; reflexivity|]].
  - exists [registration cfgLinux "app/cfg/cfg_linux.go" "app/cfg";
            registration cfgWindows "app/cfg/cfg_windows.go" "app/cfg"].
    split; [|vm_compute; reflexivity].
    vm_compute. first [reflexivity | apply perm_swap].
  - split; [reflexivity|]. vm_compute. discriminate.
Qed.

(** C3, amended. With an initialized index and a record for the owning
    package in the registry, the step for a type declaration writes the
    built TypeDefinition into the local map of its owning package, under the
    bare declared name, whenever the index lookup finds the key absent or
    finds an entry with a different owning package path; when the index
    already holds the key with the same owning package path, the declaration
    is skipped and the store, local maps included, is left as it was. *)
Theorem C3_local_write `{Primitives} (astFile : File) (info : AstFileInfo)
    (typeSpec : TypeSpec) (pkgs : PackagesDefinitions) (ps : ParsedSchemas)
    (unique : gmap string TypeSpecDef) :
  let typeSpecDef := definitionOf (astFile, info, typeSpec) in
  uniqueDefinitions pkgs = Some unique →
  is_Some (map_get (packages pkgs) (AstFileInfo_PackagePath info)) →
  ((∀ another, unique !! FullName typeSpecDef = Some another →
      TypeSpecDef_PkgPath another ≠ AstFileInfo_PackagePath info) →
   ∃ pkgs' ps',
     parseTypeSpec astFile info typeSpec (pkgs, ps) = Continue (pkgs', ps')
     ∧ findTypeSpec (AstFileInfo_PackagePath info) (TypeSpec_Name typeSpec) pkgs'
       = Some typeSpecDef)
  ∧ (∀ another, unique !! FullName typeSpecDef = Some another →
      TypeSpecDef_PkgPath another = AstFileInfo_PackagePath info →
      ∃ ps', parseTypeSpec astFile info typeSpec (pkgs, ps) = Continue (pkgs, ps')).
Proof.
  intros d Hu [pd Hpd]. split.
  - intros Hother.
    assert (∀ u', ∃ pkgs',
      writeTypeDefinition d (with_uniqueDefinitions pkgs u') = Done pkgs')
      as Hwrite.
    { intros u'. destruct (writeTypeDefinition _ _) eqn:Hw; [by eauto|].
      apply writeTypeDefinition_Panics in Hw. simpl in Hw.
      unfold d in Hw. simpl in Hw. congruence. }
    destruct (unique !! FullName d) as [another|] eqn:Hk.
    + rewrite (parseTypeSpec_collision _ _ _ _ _ unique another) by eauto.
      destruct (Hwrite (Some (delete (FullName d) unique))) as [pkgs' Hw].
      fold d. rewrite Hw. eexists _, _. split; [done|].
      by apply writeTypeDefinition_findTypeSpec in Hw.
    + rewrite (parseTypeSpec_fresh _ _ _ _ _ unique) by eauto.
      destruct (Hwrite (Some (<[FullName d := d]> unique))) as [pkgs' Hw].
      fold d. rewrite Hw. eexists _, _. split; [done|].
      by apply writeTypeDefinition_findTypeSpec in Hw.
  - intros another Hk Hp. eexists.
    by apply parseTypeSpec_repeat with unique another.
Qed.

Lemma C3_local_write_witness :
  ∃ pkgs' ps',
    parseTypeSpec (H:=samplePrimitives) appUserDecl.1.1 appUserDecl.1.2
      appUserDecl.2 (theStore modelsStore, []) = Continue (pkgs', ps')
    ∧ findTypeSpec "app/models" "User" pkgs' = Some (definitionOf appUserDecl).
Proof.
  refine (proj1 (C3_local_write (H:=samplePrimitives) appUserDecl.1.1
    appUserDecl.1.2 appUserDecl.2 (theStore modelsStore) [] ∅ _ _) _).
  - vm_compute. reflexivity.
  - vm_compute. eexists. reflexivity.
  - intros another Hk. vm_compute in Hk. discriminate.
Defined.

(** ** The harvest as a whole *)

Section PassFacts.
Context `{Primitives}.
Implicit Types (pkgs : PackagesDefinitions) (ps : ParsedSchemas).
Implicit Types (w : File * AstFileInfo * TypeSpec).
Implicit Types (ws : list (option (File * AstFileInfo * TypeSpec))).

Lemma parseWork_cases w pkgs ps unique :
  uniqueDefinitions pkgs = Some unique →
  StepCase w pkgs ps unique (parseWork (Some w) (pkgs, ps)).
Proof.
  intros Hu. destruct w as [[astFile info] typeSpec]. unfold parseWork.
  cbn [fst snd].
  destruct (unique !! FullName (definitionOf (astFile, info, typeSpec)))
    as [another|] eqn:Hk.
  - destruct (decide (TypeSpecDef_PkgPath another
                      = TypeSpecDef_PkgPath (definitionOf (astFile, info, typeSpec))))
      as [Hp|Hp].
    + erewrite parseTypeSpec_repeat by done. by eapply StepCase_repeat.
    + erewrite parseTypeSpec_collision by done.
      destruct (writeTypeDefinition _ _) as [pkgs'|] eqn:Hw.
      * eapply StepCase_write; [|done]. right. eauto.
      * apply StepCase_panic. by apply writeTypeDefinition_Panics in Hw.
  - erewrite parseTypeSpec_fresh by done.
    destruct (writeTypeDefinition _ _) as [pkgs'|] eqn:Hw.
    + eapply StepCase_write; [|done]. by left.
    + apply StepCase_panic. by apply writeTypeDefinition_Panics in Hw.
Qed.

(** With a nil index the pass stops at its first unit of work. *)
Lemma harvest_nil_index ws pkgs ps :
  uniqueDefinitions pkgs = None →
  forRange parseWork ws (pkgs, ps) =
  match ws with
  | [] => Continue (pkgs, ps)
  | None :: _ => Panic
  | Some _ :: _ => Return (pkgs, errUniqueDefinitionsNil)
  end.
Proof.
  intros Hu. destruct ws as [|[[[astFile info] typeSpec]|] ws]; [done| |done].
  cbn [forRange parseWork fst snd]. by rewrite parseTypeSpec_nil.
Qed.

Lemma writeTypeDefinition_shape d pkgs pkgs' path :
  writeTypeDefinition d pkgs = Done pkgs' →
  is_Some (map_get (packages pkgs') path) ↔ is_Some (map_get (packages pkgs) path).
Proof.
  intros (registry & pd & Hreg & Hpd & _ & _ & Hreg')%writeTypeDefinition_Done.
  unfold map_get. rewrite Hreg, Hreg'. simpl.
  destruct (decide (TypeSpecDef_PkgPath d = path)) as [<-|Hne].
  - rewrite lookup_insert_eq, Hpd. split; eauto.
  - by rewrite lookup_insert_ne.
Qed.

Lemma parseWork_shape pkgs0 w st :
  SameShape pkgs0 st →
  match parseWork (Some w) st with
  | Continue st' => SameShape pkgs0 st'
  | Return _ => False
  | Panic =>
      map_get (packages pkgs0) (TypeSpecDef_PkgPath (definitionOf w)) = None
  end.
Proof.
  destruct st as [pkgs ps]. intros (Hf & [unique Hu] & Hdom).
  destruct (parseWork_cases w pkgs ps unique Hu)
    as [another Hk Hp|unique' pkgs' _ Hw|Hpanic].
  - split; [done|]. split; [by eauto|done].
  - pose proof Hw as (? & ? & _ & _ & Hf' & Hu' & _)%writeTypeDefinition_Done.
    unfold SameShape in *. simpl in *.
    split; [by rewrite Hf'|]. split; [rewrite Hu'; by eauto|].
    intros path. rewrite <- Hdom.
    by rewrite (writeTypeDefinition_shape _ _ _ path Hw).
  - simpl in Hdom. apply eq_None_not_Some. rewrite <- Hdom.
    by rewrite Hpanic; intros [? [=]].
Qed.

Lemma SameShape_refl pkgs ps :
  is_Some (uniqueDefinitions pkgs) → SameShape pkgs (pkgs, ps).
Proof. by intros Hu. Qed.

End PassFacts.

Section WorkFacts.
Implicit Types (entry : FilePtr * AstFileInfo).
Implicit Types (order : list (FilePtr * AstFileInfo)).

Lemma elem_of_workOf_Some entry f info t :
  Some (f, info, t) ∈ workOf entry ↔
  entry = (Some f, info) ∧ t ∈ typeSpecsOfFile f.
Proof.
  destruct entry as [[g|] i]; unfold workOf; simpl.
  - rewrite list_elem_of_fmap. split.
    + intros (t' & [= -> -> ->] & Ht). done.
    + intros [[= -> ->] Ht]. eauto.
  - rewrite list_elem_of_singleton. split; [done|]. by intros [[=] _].
Qed.

Lemma elem_of_workOf_None entry : None ∈ workOf entry ↔ entry.1 = None.
Proof.
  destruct entry as [[g|] i]; unfold workOf; simpl.
  - rewrite list_elem_of_fmap. split; [by intros (? & [=] & _)|done].
  - rewrite list_elem_of_singleton. done.
Qed.

Lemma work_Some order f info t :
  Some (f, info, t) ∈ order ≫= workOf ↔
  (Some f, info) ∈ order ∧ t ∈ typeSpecsOfFile f.
Proof.
  rewrite list_elem_of_bind. split.
  - intros (entry & Hw & Hin). apply elem_of_workOf_Some in Hw as [-> Ht]. done.
  - intros [Hin Ht]. exists (Some f, info). by rewrite elem_of_workOf_Some.
Qed.

Lemma work_None order :
  None ∈ order ≫= workOf ↔ ∃ entry, entry ∈ order ∧ entry.1 = None.
Proof.
  rewrite list_elem_of_bind. setoid_rewrite elem_of_workOf_None.
  split; intros (entry & ? & ?); eauto.
Qed.

End WorkFacts.

(** ** The failure modes of the harvest *)

(** C7, refuted as stated, on both sides. The zero value of the store,
    whose index is nil, collects a file that declares no type: the harvest
    returns normally, with an empty result and no error. A fresh store, whose
    index is initialized, collects a standalone file (registered with the
    empty package path) that declares a type: the harvest does not return at
    all. *)
Lemma C7_counterexample :
  (uniqueDefinitions (theStore handlersStore) = None
   ∧ ∀ r, ParseTypes (H:=samplePrimitives) (theStore handlersStore) r →
          r = Done (theStore handlersStore, inl []))
  ∧ (is_Some (uniqueDefinitions (theStore standaloneStore))
     ∧ ∀ r, ParseTypes (H:=samplePrimitives) (theStore standaloneStore) r →
            r = Panics).
Proof.
  split; (split; [vm_compute; by eauto|]).
  - intros r (order & Hperm & <-). vm_compute in Hperm.
    apply Permutation_singleton_r in Hperm as ->. vm_compute. reflexivity.
  - intros r (order & Hperm & <-). vm_compute in Hperm.
    apply Permutation_singleton_r in Hperm as ->. vm_compute. reflexivity.
Qed.

Section FailureFacts.
Context `{Primitives}.

(** Once the index is initialized the pass cannot return the error. *)
Lemma harvest_no_error ws pkgs ps :
  is_Some (uniqueDefinitions pkgs) →
  match forRange parseWork ws (pkgs, ps) with
  | Continue st' => SameShape pkgs st'
  | Return _ => False
  | Panic => True
  end.
Proof.
  intros Hu.
  apply (forRange_invariant parseWork (SameShape pkgs) (λ _, False) True);
    [by apply SameShape_refl|].
  intros [w|] st _ Hst; [|done].
  pose proof (parseWork_shape pkgs w st Hst) as Hstep.
  by destruct (parseWork (Some w) st).
Qed.

(** It runs through when every unit of work has its file and the record
    of its package. *)
Lemma harvest_runs_through ws pkgs ps :
  is_Some (uniqueDefinitions pkgs) →
  (∀ x, x ∈ ws → ∃ w, x = Some w ∧
      is_Some (map_get (packages pkgs) (TypeSpecDef_PkgPath (definitionOf w)))) →
  ∃ st', forRange parseWork ws (pkgs, ps) = Continue st' ∧ SameShape pkgs st'.
Proof.
  intros Hu Hws.
  pose proof (forRange_invariant parseWork (SameShape pkgs) (λ _, False) False
                ws (pkgs, ps) (SameShape_refl pkgs ps Hu)) as Hinv.
  assert (∀ x st, x ∈ ws → SameShape pkgs st →
            match parseWork x st with
            | Continue st' => SameShape pkgs st'
            | Return _ => False
            | Panic => False
            end) as Hstep.
  { intros x st Hx Hst. destruct (Hws x Hx) as (w & -> & [pd Hpd]).
    pose proof (parseWork_shape pkgs w st Hst) as Hstep.
    destruct (parseWork (Some w) st); [done|done|congruence]. }
  specialize (Hinv Hstep).
  destruct (forRange parseWork ws (pkgs, ps)) as [st'| |]; by eauto.
Qed.

End FailureFacts.

(** C7, amended. With a nil index the harvest returns the configuration
    error as soon as it processes a type declaration: over a collection of
    non-nil files it returns the error when some unit declares a type, and
    returns normally, with an empty result, when none does. The error is the
    only failure the harvest returns, it is returned only when the index is
    nil, and the store is then as it was. With an initialized index the
    harvest returns normally whenever every unit is a non-nil file whose
    package path, if the unit declares a type, has a record in the
    registry. *)
Theorem C7_harvest_failure `{Primitives} (pkgs : PackagesDefinitions)
    (r : outcome (PackagesDefinitions * (ParsedSchemas + string))) :
  ParseTypes pkgs r →
  (uniqueDefinitions pkgs = None →
   (∀ entry, entry ∈ rangeFiles pkgs → is_Some entry.1) →
   ((∃ entry f, entry ∈ rangeFiles pkgs ∧ entry.1 = Some f
                ∧ typeSpecsOfFile f ≠ []) →
    r = Done (pkgs, inr errUniqueDefinitionsNil))
   ∧ ((∀ entry f, entry ∈ rangeFiles pkgs → entry.1 = Some f →
                  typeSpecsOfFile f = []) →
      r = Done (pkgs, inl [])))
  ∧ (∀ pkgs' e, r = Done (pkgs', inr e) →
       uniqueDefinitions pkgs = None ∧ pkgs' = pkgs
       ∧ e = errUniqueDefinitionsNil)
  ∧ (is_Some (uniqueDefinitions pkgs) →
     (∀ entry, entry ∈ rangeFiles pkgs → Harvestable pkgs entry) →
     ∃ pkgs' out, r = Done (pkgs', inl out)).
Proof.
  intros (order & Hperm & <-). unfold ParseTypesIn.
  rewrite forRange_parseFile. split; [|split].
  - intros Hu Hnonnil. rewrite harvest_nil_index by done.
    destruct (order ≫= workOf) as [|[[[f info] t]|] ws] eqn:Hws.
    + split; [|done]. intros (entry & f & Hin & Hf & Hts).
      destruct (typeSpecsOfFile f) as [|t ts] eqn:Hf'; [done|].
      assert (Some (f, entry.2, t) ∈ order ≫= workOf) as Hw.
      { apply work_Some. rewrite Hperm, Hf'. split; [|by left].
        by destruct entry as [? ?]; simpl in *; subst. }
      rewrite Hws in Hw. by apply not_elem_of_nil in Hw.
    + split; [done|]. intros Hnone.
      assert (Some (f, info, t) ∈ order ≫= workOf) as Hw
        by (rewrite Hws; left).
      apply work_Some in Hw as [Hin Ht]. rewrite Hperm in Hin.
      rewrite (Hnone _ f Hin eq_refl) in Ht. by apply not_elem_of_nil in Ht.
    + assert (None ∈ order ≫= workOf) as Hw by (rewrite Hws; left).
      apply work_None in Hw as (entry & Hin & Hnil). rewrite Hperm in Hin.
      destruct (Hnonnil entry Hin) as [f Hf]. congruence.
  - intros pkgs' e Hr. destruct (uniqueDefinitions pkgs) as [unique|] eqn:Hu.
    + pose proof (harvest_no_error (order ≫= workOf) pkgs []) as Hno.
      rewrite Hu in Hno. specialize (Hno (mk_is_Some _ _ eq_refl)).
      destruct (forRange parseWork _ _) as [[? ?]|[? ?]|]; done.
    + rewrite harvest_nil_index in Hr by done.
      destruct (order ≫= workOf) as [|[w|] ws]; by simplify_eq.
  - intros Hu Hok.
    destruct (harvest_runs_through (order ≫= workOf) pkgs [] Hu)
      as ([pkgs' out] & -> & _); [|by eauto].
    intros [[[f info] t]|] Hx.
    + apply work_Some in Hx as [Hin Ht]. rewrite Hperm in Hin.
      destruct (Hok _ Hin) as (f' & [= <-] & Hreg). eexists. split; [done|].
      apply Hreg. intros Hnil. rewrite Hnil in Ht. by apply not_elem_of_nil in Ht.
    + apply work_None in Hx as (entry & Hin & Hnil). rewrite Hperm in Hin.
      destruct (Hok _ Hin) as (f' & Hf' & _). congruence.
Qed.

Lemma C7_harvest_failure_witness :
  ∃ pkgs' out,
    ParseTypesIn (H:=samplePrimitives) (rangeFiles (theStore modelsStore))
      (theStore modelsStore) = Done (pkgs', inl out).
Proof.
  refine (proj2 (proj2 (C7_harvest_failure (H:=samplePrimitives)
    (theStore modelsStore) _ _)) _ _).
  - exists (rangeFiles (theStore modelsStore)). split; reflexivity.
  - vm_compute. by eexists.
  - intros entry Hin. vm_compute in Hin.
    apply elem_of_cons in Hin as [->|Hin];
      [|apply elem_of_cons in Hin as [->|Hin];
        [|by apply not_elem_of_nil in Hin]].
    + eexists. split; [reflexivity|]. intros _. vm_compute. by eexists.
    + eexists. split; [reflexivity|]. intros _. vm_compute. by eexists.
Defined.

(** ** The empty package path *)

Lemma length_zero_empty (s : string) : String.length s = 0 ↔ s = EmptyString.
Proof. by destruct s. Qed.

Lemma CollectAstFile_NoEmptyPath packageDir path astFile pkgs pkgs' :
  NoEmptyPath pkgs →
  CollectAstFile packageDir path astFile pkgs = Done pkgs' →
  NoEmptyPath pkgs'.
Proof.
  intros [Hreg Hidx]. unfold CollectAstFile.
  destruct (decide (String.length packageDir = 0)) as [Hlen|Hlen].
  { by intros [= <-]. }
  assert (packageDir ≠ EmptyString) as Hne by by rewrite <- length_zero_empty.
  assert (default ∅ (packages pkgs) !! EmptyString = None) as Hreg'.
  { unfold map_get in Hreg. by destruct (packages pkgs). }
  simpl. destruct (default ∅ (packages pkgs) !! packageDir) as [pd|].
  - intros [= <-]. split; [|done]. unfold map_get. simpl.
    by rewrite lookup_insert_ne.
  - destruct astFile as [f|]; simpl; [|done].
    intros [= <-]. split; [|done]. unfold map_get. simpl.
    by rewrite lookup_insert_ne.
Qed.

Section EmptyPathFacts.
Context `{Primitives}.

Lemma writeTypeDefinition_NoEmptyPath d pkgs unique' pkgs' :
  NoEmptyPath pkgs →
  (∀ k e, unique' !! k = Some e → TypeSpecDef_PkgPath e ≠ EmptyString
                                  ∨ e = d) →
  writeTypeDefinition d (with_uniqueDefinitions pkgs (Some unique')) = Done pkgs' →
  NoEmptyPath pkgs'.
Proof.
  intros [Hreg _] Hidx
    (registry & pd & Hr & Hpd & _ & Hu' & Hr')%writeTypeDefinition_Done.
  simpl in *. unfold map_get in Hreg. rewrite Hr in Hreg. simpl in Hreg.
  assert (TypeSpecDef_PkgPath d ≠ EmptyString) as Hne by congruence.
  split.
  - unfold map_get. rewrite Hr'. simpl. by rewrite lookup_insert_ne.
  - intros k e. rewrite Hu'. simpl. intros He.
    destruct (Hidx k e He) as [?| ->]; done.
Qed.

Lemma parseWork_NoEmptyPath w pkgs ps :
  NoEmptyPath pkgs →
  match parseWork (Some w) (pkgs, ps) with
  | Continue st' =>
      NoEmptyPath st'.1
      ∧ (is_Some (uniqueDefinitions pkgs) → is_Some (uniqueDefinitions st'.1))
  | Return r => NoEmptyPath r.1 ∧ uniqueDefinitions pkgs = None
  | Panic => True
  end.
Proof.
  intros Hinv. destruct (uniqueDefinitions pkgs) as [unique|] eqn:Hu.
  - destruct (parseWork_cases w pkgs ps unique Hu)
      as [another Hk Hp|unique' pkgs' Hcase Hw|Hpanic]; [done| |done].
    pose proof Hw as (? & ? & _ & _ & _ & Hu' & _)%writeTypeDefinition_Done.
    cbn [fst]. split; [|by rewrite Hu'; eauto].
    apply (writeTypeDefinition_NoEmptyPath _ _ _ _ Hinv) in Hw; [done|].
    destruct Hinv as [_ Hidx]. unfold map_get in Hidx. rewrite Hu in Hidx.
    simpl in Hidx. intros k e.
    destruct Hcase as [[_ ->]|[_ ->]].
    + rewrite lookup_insert. case_decide; [by intros [= <-]; right|].
      intros He. left. by eapply Hidx.
    + rewrite lookup_delete. case_decide; [done|].
      intros He. left. by eapply Hidx.
  - destruct w as [[astFile info] typeSpec]. unfold parseWork. cbn [fst snd].
    by rewrite parseTypeSpec_nil.
Qed.

(** A declaration owned by the empty path stops the pass. *)
Lemma parseWork_empty_path w pkgs ps :
  NoEmptyPath pkgs →
  is_Some (uniqueDefinitions pkgs) →
  TypeSpecDef_PkgPath (definitionOf w) = EmptyString →
  parseWork (Some w) (pkgs, ps) = Panic.
Proof.
  intros [Hreg Hidx] [unique Hu] Hpath.
  destruct (parseWork_cases w pkgs ps unique Hu)
    as [another Hk Hp|unique' pkgs' Hcase Hw|Hpanic]; [| |done].
  - exfalso. apply (Hidx (FullName (definitionOf w)) another); [|congruence].
    unfold map_get. by rewrite Hu.
  - apply writeTypeDefinition_Done in Hw as (registry & pd & Hr & Hpd & _).
    simpl in Hr. unfold map_get in Hreg. rewrite Hr in Hreg. simpl in Hreg.
    congruence.
Qed.

Lemma forRange_reaches_panic ws w pkgs ps :
  NoEmptyPath pkgs →
  is_Some (uniqueDefinitions pkgs) →
  Some w ∈ ws →
  TypeSpecDef_PkgPath (definitionOf w) = EmptyString →
  forRange parseWork ws (pkgs, ps) = Panic.
Proof.
  revert pkgs ps. induction ws as [|x ws IH]; intros pkgs ps Hinv Hu Hin Hpath.
  { by apply not_elem_of_nil in Hin. }
  apply elem_of_cons in Hin as [<-|Hin].
  - cbn [forRange]. by rewrite parseWork_empty_path.
  - cbn [forRange]. destruct x as [w'|]; [|done].
    pose proof (parseWork_NoEmptyPath w' pkgs ps Hinv) as Hstep.
    destruct (parseWork (Some w') (pkgs, ps)) as [[pkgs' ps']|r|]; [| |done].
    + destruct Hstep as [Hinv' Hu']. apply IH; auto.
    + destruct Hstep as [_ Hnil]. rewrite Hnil in Hu. by destruct Hu.
Qed.

Lemma harvest_NoEmptyPath ws pkgs ps :
  NoEmptyPath pkgs →
  match forRange parseWork ws (pkgs, ps) with
  | Continue st' => NoEmptyPath st'.1
  | Return r => NoEmptyPath r.1
  | Panic => True
  end.
Proof.
  intros Hinv.
  apply (forRange_invariant parseWork (λ st, NoEmptyPath st.1)
           (λ r, NoEmptyPath r.1) True); [done|].
  intros [w|] [pkgs' ps'] _ Hst; [|done].
  pose proof (parseWork_NoEmptyPath w pkgs' ps' Hst) as Hstep.
  destruct (parseWork (Some w) (pkgs', ps')); [by destruct Hstep..|done].
Qed.

Lemma Reachable_NoEmptyPath pkgs : Reachable pkgs → NoEmptyPath pkgs.
Proof.
  induction 1 as [| |pkgs packageDir path astFile pkgs' _ IH Hc
                  |pkgs pkgs' out _ IH (order & _ & Hr)].
  - by split.
  - by split.
  - by eapply CollectAstFile_NoEmptyPath.
  - unfold ParseTypesIn in Hr. rewrite forRange_parseFile in Hr.
    pose proof (harvest_NoEmptyPath (order ≫= workOf) pkgs [] IH) as Hinv.
    destruct (forRange parseWork _ _) as [[? ?]|[? ?]|]; by simplify_eq.
Qed.

End EmptyPathFacts.

Lemma elem_of_rangeFiles (pkgs : PackagesDefinitions) key entry :
  map_get (files pkgs) key = Some entry → entry ∈ rangeFiles pkgs.
Proof.
  unfold map_get, rangeFiles. destruct (files pkgs) as [fs|]; [|done]. simpl.
  intros Hk. apply list_elem_of_fmap. exists (key, entry).
  split; [done|]. by apply elem_of_map_to_list.
Qed.

(** C9. On every store the operations can build, a unit registered with
    the empty package path is accepted: it is tracked in [files] and the
    registry is left as it was, without a record for it. And whenever such a
    store, with its index initialized, holds a unit registered with the empty
    package path that declares a type, the harvest does not return in any
    order of visit: the write into the local map goes through the nil record
    of the empty path and panics. *)
Theorem C9_empty_package_path `{Primitives} (pkgs : PackagesDefinitions)
    (path : string) (f : File) :
  Reachable pkgs →
  (∃ pkgs',
     CollectAstFile EmptyString path (Some f) pkgs = Done pkgs'
     ∧ packages pkgs' = packages pkgs
     ∧ uniqueDefinitions pkgs' = uniqueDefinitions pkgs
     ∧ (Some f, {| AstFileInfo_File := Some f; AstFileInfo_Path := path;
                   AstFileInfo_PackagePath := EmptyString |}) ∈ rangeFiles pkgs'
     ∧ map_get (packages pkgs') EmptyString = None)
  ∧ (∀ entry g,
       entry ∈ rangeFiles pkgs → entry.1 = Some g →
       AstFileInfo_PackagePath entry.2 = EmptyString →
       typeSpecsOfFile g ≠ [] →
       is_Some (uniqueDefinitions pkgs) →
       ∀ r, ParseTypes pkgs r → r = Panics).
Proof.
  intros Hreach. pose proof (Reachable_NoEmptyPath pkgs Hreach) as Hinv. split.
  - eexists. split; [reflexivity|]. simpl. split; [done|]. split; [done|].
    split; [|by destruct Hinv].
    apply elem_of_rangeFiles with (Some (File_addr f)).
    unfold map_get. simpl. by rewrite lookup_insert_eq.
  - intros [? info] g Hin [= ->] Hpath Hdecl Hu r (order & Hperm & <-).
    simpl in Hpath. unfold ParseTypesIn. rewrite forRange_parseFile.
    destruct (typeSpecsOfFile g) as [|t ts] eqn:Hts; [done|].
    rewrite (forRange_reaches_panic _ (g, info, t)); try done.
    apply work_Some. rewrite Hperm, Hts. split; [done|by left].
Qed.

Lemma C9_empty_package_path_witness :
  ParseTypesIn (H:=samplePrimitives) (rangeFiles (theStore standaloneStore))
    (theStore standaloneStore) = Panics.
Proof.
  refine (proj2 (C9_empty_package_path (H:=samplePrimitives)
    (theStore standaloneStore) "main.go" standalone _)
    (registration standalone "main.go" EmptyString) standalone _ _ _ _ _ _ _).
  - apply (Reachable_collect NewPackagesDefinitions EmptyString "main.go"
             (Some standalone)); [apply Reachable_new|reflexivity].
  - vm_compute. left.
  - reflexivity.
  - reflexivity.
  - vm_compute. discriminate.
  - vm_compute. by eexists.
  - exists (rangeFiles (theStore standaloneStore)). split; reflexivity.
Defined.

(** ** A second harvest *)

Section SecondPassFacts.
Context `{Primitives}.
Implicit Types (pkgs : PackagesDefinitions) (ps : ParsedSchemas).
Implicit Types (ws : list (option (File * AstFileInfo * TypeSpec))).

Lemma parseWork_indexes ws w pkgs ps pkgs' ps' :
  NonConflicting ws → Agrees ws pkgs → Some w ∈ ws →
  is_Some (uniqueDefinitions pkgs) →
  parseWork (Some w) (pkgs, ps) = Continue (pkgs', ps') →
  Agrees ws pkgs' ∧ Indexed pkgs' w ∧ files pkgs' = files pkgs
  ∧ is_Some (uniqueDefinitions pkgs')
  ∧ ∀ w', Indexed pkgs w' → Indexed pkgs' w'.
Proof.
  intros Hnc Hag Hin [unique Hu] Hstep.
  pose proof (Hag w) as Hagw. unfold map_get in Hagw. rewrite Hu in Hagw.
  simpl in Hagw.
  destruct (parseWork_cases w pkgs ps unique Hu)
    as [another Hk Hp|unique' pkgs1 Hcase Hw|Hpanic]; simplify_eq.
  - split; [done|]. split; [|by eauto].
    exists another. unfold map_get. by rewrite Hu.
  - destruct Hcase as [[Hk ->]|[(another & Hk & Hne) _]];
      [|by specialize (Hagw another Hin Hk)].
    apply writeTypeDefinition_Done in Hw as (? & ? & _ & _ & Hf & Hu' & _).
    simpl in Hf, Hu'. unfold Agrees, Indexed, map_get. rewrite Hu', Hu. simpl.
    split; [|split; [|split; [done|split; [by eauto|]]]].
    + intros w2 e Hin2. rewrite lookup_insert. case_decide as Hkey.
      * intros [= <-]. by apply Hnc.
      * intros He. apply (Hag w2 e Hin2). unfold map_get. by rewrite Hu.
    + exists (definitionOf w). by rewrite lookup_insert_eq.
    + intros w2 (e & He & Hp). exists e. split; [|done].
      rewrite lookup_insert_ne; [done|]. intros Hkey. congruence.
Qed.

(** The first pass over a collection without conflicts leaves every
    declaration indexed. *)
Lemma first_pass_indexes ws ws1 pkgs ps pkgs' ps' :
  NonConflicting ws → Agrees ws pkgs → (∀ x, x ∈ ws1 → x ∈ ws) →
  is_Some (uniqueDefinitions pkgs) →
  forRange parseWork ws1 (pkgs, ps) = Continue (pkgs', ps') →
  files pkgs' = files pkgs ∧ is_Some (uniqueDefinitions pkgs')
  ∧ (∀ w', Indexed pkgs w' → Indexed pkgs' w')
  ∧ ∀ x, x ∈ ws1 → ∃ w, x = Some w ∧ Indexed pkgs' w.
Proof.
  intros Hnc. revert pkgs ps.
  induction ws1 as [|x ws1 IH]; intros pkgs ps Hag Hsub Hu Hrun.
  { simplify_eq/=. repeat split; try done. by intros ? ?%not_elem_of_nil. }
  cbn [forRange] in Hrun. destruct x as [w|]; [|done].
  destruct (parseWork (Some w) (pkgs, ps)) as [[pkgs1 ps1]| |] eqn:Hstep;
    [|done..].
  destruct (parseWork_indexes ws w pkgs ps pkgs1 ps1)
    as (Hag1 & Hw & Hf1 & Hu1 & Hmono1); try done; [by apply Hsub; left|].
  destruct (IH pkgs1 ps1) as (Hf & Hu' & Hmono & Hall); try done.
  { intros y Hy. apply Hsub. by right. }
  repeat split; [congruence|done|by auto|].
  intros y [->|Hy]%elem_of_cons; [by eauto|by auto].
Qed.

(** A pass over declarations that are all indexed changes nothing. *)
Lemma second_pass_skips ws pkgs ps :
  (∀ x, x ∈ ws → ∃ w, x = Some w ∧ Indexed pkgs w) →
  ∃ ps', forRange parseWork ws (pkgs, ps) = Continue (pkgs, ps').
Proof.
  revert ps. induction ws as [|x ws IH]; intros ps Hall; [by eexists|].
  destruct (Hall x) as ([[astFile info] typeSpec] & -> & e & He & Hp);
    [by left|].
  unfold map_get in He.
  destruct (uniqueDefinitions pkgs) as [unique|] eqn:Hu; [|done].
  cbn [forRange parseWork fst snd].
  rewrite (parseTypeSpec_repeat _ _ _ _ _ unique e) by done.
  apply IH. intros y Hy. apply Hall. by right.
Qed.

End SecondPassFacts.

(** C8. Over a collection without conflicts (two declarations with the
    same index key have the same owning package path) and an index that is
    fresh (or nil), a harvest that has returned normally can be run again, in
    any order of visit: the second run returns normally and leaves the store
    as the first run left it, so that the local type-definition map of every
    package record is the one it was after the first run. *)
Theorem C8_harvest_idempotent `{Primitives} (pkgs pkgs1 : PackagesDefinitions)
    (out1 : ParsedSchemas)
    (r2 : outcome (PackagesDefinitions * (ParsedSchemas + string))) :
  uniqueDefinitions pkgs = Some ∅ ∨ uniqueDefinitions pkgs = None →
  NonConflicting (rangeFiles pkgs ≫= workOf) →
  ParseTypes pkgs (Done (pkgs1, inl out1)) →
  ParseTypes pkgs1 r2 →
  ∃ pkgs2 out2,
    r2 = Done (pkgs2, inl out2)
    ∧ pkgs2 = pkgs1
    ∧ ∀ path,
        PackageDefinitions_TypeDefinitions <$> map_get (packages pkgs2) path
        = PackageDefinitions_TypeDefinitions <$> map_get (packages pkgs1) path.
Proof.
  intros Hu Hnc (order1 & Hperm1 & Hrun1) (order2 & Hperm2 & <-).
  unfold ParseTypesIn in *. rewrite forRange_parseFile in *.
  destruct (forRange parseWork (order1 ≫= workOf) (pkgs, []))
    as [[pkgs1' out1']|[? ?]|] eqn:Hfirst; simplify_eq.
  assert (∀ x, x ∈ order1 ≫= workOf ↔ x ∈ rangeFiles pkgs ≫= workOf) as Hsame.
  { intros x. rewrite !list_elem_of_bind. by setoid_rewrite Hperm1. }
  destruct Hu as [Hu|Hu].
  - destruct (first_pass_indexes (order1 ≫= workOf) (order1 ≫= workOf)
                pkgs [] pkgs1 out1) as (Hf & _ & _ & Hall); try done.
    + intros w1 w2 ?%Hsame ?%Hsame. by apply Hnc.
    + intros w e _. unfold map_get. by rewrite Hu.
    + destruct (second_pass_skips (order2 ≫= workOf) pkgs1 []) as [out2 ->].
      * intros x Hx. apply Hall. revert Hx. rewrite !list_elem_of_bind.
        setoid_rewrite Hperm2. setoid_rewrite Hperm1.
        unfold rangeFiles. by rewrite Hf.
      * by exists pkgs1, out2.
  - rewrite harvest_nil_index in Hfirst by done.
    destruct (order1 ≫= workOf) as [|[w|] ws1] eqn:Hws1; simplify_eq.
    assert (order2 ≫= workOf = []) as ->.
    { apply elem_of_nil_inv. intros x Hx.
      assert (x ∈ order1 ≫= workOf) as Hx1.
      { revert Hx. rewrite !list_elem_of_bind.
        setoid_rewrite Hperm2. by setoid_rewrite Hperm1. }
      rewrite Hws1 in Hx1. by apply not_elem_of_nil in Hx1. }
    by exists pkgs1, [].
Qed.

Lemma C8_harvest_idempotent_witness :
  ∃ pkgs2 out2,
    ParseTypesIn (H:=samplePrimitives) (rangeFiles cfgHarvested.1) cfgHarvested.1
    = Done (pkgs2, inl out2)
    ∧ pkgs2 = cfgHarvested.1
    ∧ ∀ path,
        PackageDefinitions_TypeDefinitions <$> map_get (packages pkgs2) path
        = PackageDefinitions_TypeDefinitions
            <$> map_get (packages cfgHarvested.1) path.
Proof.
  apply (C8_harvest_idempotent (H:=samplePrimitives) (theStore cfgStore)
           cfgHarvested.1 cfgHarvested.2).
  - left. reflexivity.
  - intros w1 w2 H1 H2 _. vm_compute in H1, H2.
    apply elem_of_cons in H1 as [H1|H1];
      [|apply elem_of_cons in H1 as [H1|H1];
        [|by apply not_elem_of_nil in H1]];
    (apply elem_of_cons in H2 as [H2|H2];
      [|apply elem_of_cons in H2 as [H2|H2];
        [|by apply not_elem_of_nil in H2]]);
    injection H1 as ->; injection H2 as ->; reflexivity.
  - exists (rangeFiles (theStore cfgStore)). split; [done|].
    vm_compute. reflexivity.
  - by exists (rangeFiles cfgHarvested.1).
Defined.

(** ** The import scans *)

Section ScanFacts.
Implicit Types (pkgs : PackagesDefinitions) (imports : list ImportSpec).

Lemma scanImports_find pkgs pkgName imports hasAnonymousPkg :
  scanImports pkgs pkgName imports hasAnonymousPkg =
  match find (matchesImport pkgs pkgName) imports with
  | Some imp => inl (importPath imp)
  | None =>
      inr (hasAnonymousPkg
           || existsb (λ imp, bool_decide (ImportSpec_Name imp = Some "_"))
                imports)
  end.
Proof.
  revert hasAnonymousPkg.
  induction imports as [|imp imports IH]; intros b; simpl.
  { by rewrite orb_false_r. }
  unfold matchesImport at 1. destruct (ImportSpec_Name imp) as [name|].
  - destruct (decide (name = pkgName)) as [->|Hne].
    + by rewrite bool_decide_eq_true_2.
    + rewrite bool_decide_eq_false_2 by done.
      destruct (decide (name = "_")) as [->|Hanon]; rewrite IH.
      * destruct (find _ imports); [done|].
        rewrite bool_decide_eq_true_2 by done. by rewrite orb_true_r.
      * destruct (find _ imports); [done|].
        rewrite bool_decide_eq_false_2 by congruence. done.
  - destruct (registeredAs pkgs (importPath imp) pkgName); [done|].
    rewrite IH. destruct (find _ imports); [done|].
    by rewrite bool_decide_eq_false_2.
Qed.

Lemma scanAnonymous_find pkgs pkgName imports :
  scanAnonymous pkgs pkgName imports
  = importPath <$> find (matchesAnonymous pkgs pkgName) imports.
Proof.
  induction imports as [|imp imports IH]; simpl; [done|].
  unfold matchesAnonymous at 1. destruct (ImportSpec_Name imp) as [name|].
  - destruct (decide (name = "_")) as [->|Hanon].
    + rewrite bool_decide_eq_true_2 by done. simpl.
      by destruct (registeredAs pkgs (importPath imp) pkgName).
    + rewrite bool_decide_eq_false_2 by congruence. done.
  - by rewrite bool_decide_eq_false_2.
Qed.

Lemma registeredAs_Some pkgs path pkgName :
  registeredAs pkgs path pkgName = true ↔
  ∃ pd, map_get (packages pkgs) path = Some pd
        ∧ PackageDefinitions_Name pd = pkgName.
Proof.
  unfold registeredAs. destruct (map_get (packages pkgs) path) as [pd|].
  - rewrite bool_decide_eq_true. split; [by eauto|]. by intros (? & [= <-] & ?).
  - split; [done|]. by intros (? & [=] & _).
Qed.

Lemma find_matchesAnonymous_Some pkgs pkgName imports imp :
  find (matchesAnonymous pkgs pkgName) imports = Some imp →
  existsb (λ imp, bool_decide (ImportSpec_Name imp = Some "_")) imports = true
  ∧ is_Some (packages pkgs).
Proof.
  intros [Hin Hm]%find_some. apply andb_true_iff in Hm as [Hanon Hreg].
  split.
  - apply existsb_exists. eauto.
  - apply registeredAs_Some in Hreg as (pd & Hpd & _).
    unfold map_get in Hpd. by destruct (packages pkgs).
Qed.


End ScanFacts.

Lemma findPackagePathFromImports_spec (pkgs : PackagesDefinitions)
    (pkgName : string) (f : File) :
  findPackagePathFromImports pkgName (Some f) pkgs
  = resolveQualifier_spec pkgs (qualifierOf pkgName) (File_Imports f).
Proof.
  unfold findPackagePathFromImports, resolveQualifier_spec.
  rewrite scanImports_find, scanAnonymous_find.
  destruct (find (matchesImport _ _) _) as [imp|]; [done|]. simpl.
  destruct (find (matchesAnonymous _ _) _) as [imp|] eqn:Hanon.
  - apply find_matchesAnonymous_Some in Hanon as [-> Hreg].
    by rewrite bool_decide_eq_true_2.
  - by destruct (_ && _).
Qed.

(** C4, refuted as stated. The file imports app/models without alias,
    which the registry knows under the short name models, and then gives the
    alias models to lib/orm. The qualifier models resolves to the path of the
    unnamed import, declared first, not to the path of the named import
    whose alias equals the qualifier. *)
Lemma C4_counterexample :
  namedImport "models" "lib/orm" ∈ File_Imports shadowing
  ∧ importPath (namedImport "models" "lib/orm") = "lib/orm"
  ∧ findPackagePathFromImports "models" (Some shadowing) (theStore modelsStore)
    = "app/models".
Proof. split; [by right; left|]. split; vm_compute; reflexivity. Qed.

(** C4, amended. The import list is scanned once in declaration order, and
    the first import that is either a named import whose alias equals the
    qualifier or an unnamed import whose registered short name equals the
    qualifier supplies the path: a matching alias takes precedence over
    every anonymous import and over the unnamed matches declared after it,
    so that an alias with no match declared before it supplies the path.
    Failing both, the first anonymous import whose registered short name
    equals the qualifier supplies the path, which can only happen when an
    anonymous import was seen; failing that too, the path is empty. *)
Theorem C4_import_precedence (pkgs : PackagesDefinitions) (pkgName : string)
    (f : File) :
  findPackagePathFromImports pkgName (Some f) pkgs
  = resolveQualifier_spec pkgs (qualifierOf pkgName) (File_Imports f)
  ∧ ∀ before imp after,
      File_Imports f = (before ++ imp :: after)%list →
      ImportSpec_Name imp = Some (qualifierOf pkgName) →
      (∀ earlier, earlier ∈ before →
         matchesImport pkgs (qualifierOf pkgName) earlier = false) →
      findPackagePathFromImports pkgName (Some f) pkgs = importPath imp.
Proof.
  split; [apply findPackagePathFromImports_spec|].
  intros before imp after Himports Halias Hbefore.
  rewrite findPackagePathFromImports_spec, Himports.
  unfold resolveQualifier_spec.
  assert (find (matchesImport pkgs (qualifierOf pkgName))
            (before ++ imp :: after) = Some imp) as ->; [|done].
  clear Himports. induction before as [|earlier before IH]; simpl.
  - unfold matchesImport at 1. rewrite Halias.
    by rewrite bool_decide_eq_true_2.
  - rewrite (Hbefore earlier) by left.
    apply IH. intros e He. apply Hbefore. by right.
Qed.

Lemma C4_import_precedence_witness :
  findPackagePathFromImports "models" (Some aliasing) (theStore modelsStore)
  = importPath (namedImport "models" "lib/models").
Proof.
  refine (proj2 (C4_import_precedence (theStore modelsStore) "models" aliasing)
            [unnamedImport "vendor/pq"] (namedImport "models" "lib/models")
            [unnamedImport "app/models"] _ _ _).
  - reflexivity.
  - reflexivity.
  - intros earlier Hin. apply list_elem_of_singleton in Hin as ->.
    vm_compute. reflexivity.
Defined.

(** ** The short name of an import comes from the registry *)

(** C10. Whenever the scans resolve a qualifier to a path, either some
    import declares the qualifier as its name (the alias branch, which never
    reads the registry), or the path is that of an unnamed or of an anonymous
    import and the registry holds a record for it whose short name is the
    qualifier. So when no import declares the qualifier as its name and the
    path of no import has a record in the registry, the qualifier does not
    resolve: the short name is never taken from the text of the path. *)
Theorem C10_registry_short_name (pkgs : PackagesDefinitions)
    (pkgName : string) (f : File) (path : string) :
  findPackagePathFromImports pkgName (Some f) pkgs = path →
  (path ≠ EmptyString →
   (∃ imp, imp ∈ File_Imports f
           ∧ ImportSpec_Name imp = Some (qualifierOf pkgName)
           ∧ path = importPath imp)
   ∨ (∃ imp pd, imp ∈ File_Imports f
                ∧ (ImportSpec_Name imp = None ∨ ImportSpec_Name imp = Some "_")
                ∧ path = importPath imp
                ∧ map_get (packages pkgs) path = Some pd
                ∧ PackageDefinitions_Name pd = qualifierOf pkgName))
  ∧ ((∀ imp, imp ∈ File_Imports f →
        ImportSpec_Name imp ≠ Some (qualifierOf pkgName)
        ∧ map_get (packages pkgs) (importPath imp) = None) →
     path = EmptyString).
Proof.
  intros <-. rewrite findPackagePathFromImports_spec. unfold resolveQualifier_spec.
  assert (∀ imp, find (matchesImport pkgs (qualifierOf pkgName)) (File_Imports f)
                 = Some imp →
            imp ∈ File_Imports f ∧
            (ImportSpec_Name imp = Some (qualifierOf pkgName)
             ∨ ImportSpec_Name imp = None
               ∧ ∃ pd, map_get (packages pkgs) (importPath imp) = Some pd
                       ∧ PackageDefinitions_Name pd = qualifierOf pkgName))
    as Hfirst.
  { intros imp [Hin Hm]%find_some. split; [by apply list_elem_of_In|].
    unfold matchesImport in Hm. destruct (ImportSpec_Name imp) as [name|].
    - left. by apply bool_decide_eq_true in Hm as ->.
    - right. split; [done|]. by apply registeredAs_Some. }
  assert (∀ imp, find (matchesAnonymous pkgs (qualifierOf pkgName))
                   (File_Imports f) = Some imp →
            imp ∈ File_Imports f ∧ ImportSpec_Name imp = Some "_"
            ∧ ∃ pd, map_get (packages pkgs) (importPath imp) = Some pd
                    ∧ PackageDefinitions_Name pd = qualifierOf pkgName)
    as Hsecond.
  { intros imp [Hin Hm]%find_some. split; [by apply list_elem_of_In|].
    apply andb_true_iff in Hm as [Hanon Hreg].
    split; [by apply bool_decide_eq_true in Hanon|].
    by apply registeredAs_Some. }
  destruct (find (matchesImport _ _) _) as [imp|].
  - destruct (Hfirst imp eq_refl) as [Hin [Hname|[Hname (pd & Hpd & Hn)]]].
    + split; [by intros _; left; eauto|].
      intros Hall. by destruct (Hall imp Hin).
    + split; [intros _; right; exists imp, pd; by eauto 10|].
      intros Hall. destruct (Hall imp Hin). congruence.
  - destruct (find (matchesAnonymous _ _) _) as [imp|]; [|done].
    destruct (Hsecond imp eq_refl) as (Hin & Hname & pd & Hpd & Hn).
    split; [intros _; right; exists imp, pd; by eauto 10|].
    intros Hall. destruct (Hall imp Hin). congruence.
Qed.

Lemma C10_registry_short_name_witness :
  (∃ imp, imp ∈ File_Imports drivers
          ∧ ImportSpec_Name imp = Some (qualifierOf "models")
          ∧ "app/models" = importPath imp)
  ∨ (∃ imp pd, imp ∈ File_Imports drivers
               ∧ (ImportSpec_Name imp = None ∨ ImportSpec_Name imp = Some "_")
               ∧ "app/models" = importPath imp
               ∧ map_get (packages (theStore modelsStore)) "app/models" = Some pd
               ∧ PackageDefinitions_Name pd = qualifierOf "models").
Proof.
  refine (proj1 (C10_registry_short_name (theStore modelsStore) "models"
                   drivers "app/models" _) _).
  - vm_compute. reflexivity.
  - discriminate.
Defined.

(** ** Dotted references *)

Section ResolverFacts.
Context `{Primitives}.
Implicit Types (pkgs : PackagesDefinitions) (f : File).


Lemma declaresAlias_true f pkgName :
  declaresAlias f pkgName = true ↔
  ∃ imp, imp ∈ File_Imports f ∧ ImportSpec_Name imp = Some pkgName.
Proof.
  unfold declaresAlias. rewrite existsb_exists.
  setoid_rewrite bool_decide_eq_true. by setoid_rewrite list_elem_of_In.
Qed.

Lemma FindTypeSpec_dotted reference f pkgs :
  IsGolangPrimitiveType reference = false →
  strings.ContainsRune reference dot = true →
  FindTypeSpec reference (Some f) pkgs =
  match (if declaresAlias f (qualifierOf reference) then None
         else map_get (uniqueDefinitions pkgs) reference) with
  | Some typeDef => Done (Some typeDef)
  | None =>
      findQualified (qualifierOf reference) (typeNameOf reference) f pkgs
  end.
Proof.
  intros Hprim Hdot. unfold FindTypeSpec, index. rewrite Hprim, Hdot.
  by rewrite (qualifierOf_head _ Hdot), (typeNameOf_second _ Hdot).
Qed.


End ResolverFacts.



(** ** The empty path ends the resolution *)

Lemma findTypeSpec_empty_path (pkgs : PackagesDefinitions) (typeName : string) :
  NoEmptyPath pkgs → findTypeSpec EmptyString typeName pkgs = None.
Proof.
  intros [Hreg _]. unfold findTypeSpec. unfold map_get in Hreg.
  destruct (packages pkgs) as [registry|]; [|done]. simpl in Hreg.
  by rewrite Hreg.
Qed.

(** C6. The resolver is a function without recursion, defined on every
    input: with a context that is nil or registered in the store it returns a
    result. On every store the operations can build, the lookup in the
    registry under the empty path finds nothing, for every type name. So for
    a dotted reference whose qualifier matches no import, is not the short
    name of the context and hits no definition of the pseudo-package, the
    resolution ends on that lookup and returns not found, unless the
    shortcut through the index had already answered. *)
Theorem C6_empty_path_not_found `{Primitives} (pkgs : PackagesDefinitions) :
  Reachable pkgs →
  (∀ typeName, findTypeSpec EmptyString typeName pkgs = None)
  ∧ (∀ reference file,
       file = None ∨ is_Some (map_get (files pkgs) (ptr_key file)) →
       ∃ result, FindTypeSpec reference file pkgs = Done result)
  ∧ (∀ qualifier typeName f,
       findPackagePathFromImports qualifier (Some f) pkgs = EmptyString →
       qualifier ≠ File_Name f →
       (∀ pd, map_get (packages pkgs) ("pkg/" ++ qualifier) = Some pd →
              PackageDefinitions_TypeDefinitions pd !! typeName = None) →
       findQualified qualifier typeName f pkgs = Done None)
  ∧ (∀ reference f,
       IsGolangPrimitiveType reference = false →
       strings.ContainsRune reference dot = true →
       let qualifier := qualifierOf reference in
       findPackagePathFromImports qualifier (Some f) pkgs = EmptyString →
       qualifier ≠ File_Name f →
       (∀ pd, map_get (packages pkgs) ("pkg/" ++ qualifier) = Some pd →
              PackageDefinitions_TypeDefinitions pd !! typeNameOf reference
              = None) →
       FindTypeSpec reference (Some f) pkgs
       = Done (if declaresAlias f qualifier then None
               else map_get (uniqueDefinitions pkgs) reference)).
Proof.
  intros Hinv%Reachable_NoEmptyPath.
  assert (∀ qualifier typeName f,
    findPackagePathFromImports qualifier (Some f) pkgs = EmptyString →
    qualifier ≠ File_Name f →
    (∀ pd, map_get (packages pkgs) ("pkg/" ++ qualifier) = Some pd →
           PackageDefinitions_TypeDefinitions pd !! typeName = None) →
    findQualified qualifier typeName f pkgs = Done None) as Hqualified.
  { intros qualifier typeName f Hpath Hself Hpseudo. unfold findQualified.
    rewrite Hpath. rewrite (bool_decide_eq_false_2 (qualifier = _)) by done.
    rewrite andb_false_r. cbn [mbind outcome_bind]. rewrite decide_True by done.
    rewrite findTypeSpec_empty_path by done.
    destruct (map_get (packages pkgs) ("pkg/" ++ qualifier)) as [pd|] eqn:Hpd;
      [|done].
    by rewrite (Hpseudo pd). }
  split; [|split; [|split]].
  - intros typeName. by apply findTypeSpec_empty_path.
  - intros reference file Hfile. unfold FindTypeSpec.
    destruct (IsGolangPrimitiveType reference); [by eauto|].
    destruct file as [f|]; [|by eauto].
    destruct Hfile as [[=]|[entry Hentry]].
    destruct (strings.ContainsRune reference dot) eqn:Hdot.
    + unfold index.
      rewrite (qualifierOf_head _ Hdot), (typeNameOf_second _ Hdot).
      cbn [mbind outcome_bind from_option isAliasPkgName].
      destruct (if existsb _ _ then _ else _); [by eauto|].
      unfold findQualified. rewrite Hentry.
      cbn [mbind outcome_bind from_option].
      destruct (_ && _); cbn [mbind outcome_bind from_option];
        repeat (case_decide || case_match); by eauto.
    + destruct (map_get (uniqueDefinitions pkgs) _); [by eauto|].
      rewrite Hentry. cbn [mbind outcome_bind from_option].
      destruct (findTypeSpec _ _ _); by eauto.
  - done.
  - intros reference f Hprim Hdot qualifier Hpath Hself Hpseudo.
    rewrite FindTypeSpec_dotted by done. fold qualifier.
    rewrite (Hqualified qualifier (typeNameOf reference) f) by done.
    by destruct (if declaresAlias f qualifier then _ else _).
Qed.

Lemma modelsStore_Reachable : Reachable (H:=samplePrimitives) (theStore modelsStore).
Proof.
  apply (Reachable_collect
           (theStore (CollectAstFile "app/models" "app/models/user.go"
                        (Some appUser) NewPackagesDefinitions))
           "lib/models" "lib/models/user.go" (Some libUser)); [|reflexivity].
  apply (Reachable_collect NewPackagesDefinitions
           "app/models" "app/models/user.go" (Some appUser)); [|reflexivity].
  apply Reachable_new.
Qed.

Lemma modelsHarvested_Reachable : Reachable (H:=samplePrimitives) modelsHarvested.1.
Proof.
  apply (Reachable_harvest (theStore modelsStore) _ (inl modelsHarvested.2));
    [apply modelsStore_Reachable|].
  exists (rangeFiles (theStore modelsStore)). split; [done|].
  vm_compute. reflexivity.
Qed.

Lemma C6_empty_path_not_found_witness :
  FindTypeSpec (H:=samplePrimitives) "other.User" (Some libHandlers)
    modelsHarvested.1 = Done None.
Proof.
  refine (proj2 (proj2 (proj2 (C6_empty_path_not_found (H:=samplePrimitives)
    modelsHarvested.1 modelsHarvested_Reachable)))
    "other.User" libHandlers _ _ _ _ _).
  - vm_compute. reflexivity.
  - vm_compute. reflexivity.
  - vm_compute. reflexivity.
  - vm_compute. discriminate.
  - intros pd Hpd. vm_compute in Hpd. discriminate.
Defined.

(** ** The write of a declaration *)

Section CollisionFacts.
Context `{Primitives}.
Implicit Types (pkgs : PackagesDefinitions) (ps : ParsedSchemas).
Implicit Types (w : File * AstFileInfo * TypeSpec).

Lemma writeTypeDefinition_total d pkgs :
  is_Some (map_get (packages pkgs) (TypeSpecDef_PkgPath d)) →
  ∃ pkgs', writeTypeDefinition d pkgs = Done pkgs'.
Proof.
  intros [pd Hpd]. destruct (writeTypeDefinition d pkgs) eqn:Hw; [by eauto|].
  apply writeTypeDefinition_Panics in Hw. congruence.
Qed.

Lemma writeTypeDefinition_other d pkgs pkgs' path typeName :
  writeTypeDefinition d pkgs = Done pkgs' →
  TypeSpecDef_PkgPath d ≠ path →
  findTypeSpec path typeName pkgs' = findTypeSpec path typeName pkgs.
Proof.
  intros (registry & pd & Hr & _ & _ & _ & Hr')%writeTypeDefinition_Done Hne.
  unfold findTypeSpec. rewrite Hr, Hr'. by rewrite lookup_insert_ne.
Qed.

Lemma writeTypeDefinition_registeredAs d pkgs pkgs' path pkgName :
  writeTypeDefinition d pkgs = Done pkgs' →
  registeredAs pkgs' path pkgName = registeredAs pkgs path pkgName.
Proof.
  intros (registry & pd & Hr & Hpd & _ & _ & Hr')%writeTypeDefinition_Done.
  unfold registeredAs, map_get. rewrite Hr, Hr'. simpl.
  destruct (decide (TypeSpecDef_PkgPath d = path)) as [<-|Hne].
  - by rewrite lookup_insert_eq, Hpd.
  - by rewrite lookup_insert_ne.
Qed.

End CollisionFacts.

Lemma CollectAstFile_new_package packageDir path f pkgs :
  packageDir ≠ EmptyString →
  default ∅ (packages pkgs) !! packageDir = None →
  CollectAstFile packageDir path (Some f) pkgs =
  Done {| files :=
            Some (<[Some (File_addr f) :=
                     (Some f, {| AstFileInfo_File := Some f;
                                 AstFileInfo_Path := path;
                                 AstFileInfo_PackagePath := packageDir |})]>
                    (default ∅ (files pkgs)));
          packages :=
            Some (<[packageDir :=
                     {| PackageDefinitions_Name := File_Name f;
                        PackageDefinitions_Files := {[path := Some f]};
                        PackageDefinitions_TypeDefinitions := ∅ |}]>
                    (default ∅ (packages pkgs)));
          uniqueDefinitions := uniqueDefinitions pkgs |}.
Proof.
  intros Hne Hfresh. unfold CollectAstFile.
  rewrite decide_False by by rewrite length_zero_empty.
  simpl. by rewrite Hfresh.
Qed.

(** * Further properties of the registry *)

(** ** Collecting files *)

Lemma map_get_default {K V} `{Countable K} (m : option (gmap K V)) (k : K) :
  default ∅ m !! k = map_get m k.
Proof. by destruct m. Qed.

Lemma CollectAstFile_nil_file packageDir path pkgs :
  packageDir ≠ EmptyString →
  map_get (packages pkgs) packageDir = None →
  CollectAstFile packageDir path None pkgs = Panics.
Proof.
  intros Hne Hfresh. unfold CollectAstFile.
  rewrite decide_False by by rewrite length_zero_empty.
  simpl. by rewrite map_get_default, Hfresh.
Qed.

(** Collecting under a package path that has a record keeps the short name
    and the local map of the record and enters the file in its file map. *)
Lemma CollectAstFile_registered packageDir path astFile pkgs pd :
  packageDir ≠ EmptyString →
  map_get (packages pkgs) packageDir = Some pd →
  CollectAstFile packageDir path astFile pkgs =
  Done {| files :=
            Some (<[ptr_key astFile :=
                     (astFile, {| AstFileInfo_File := astFile;
                                  AstFileInfo_Path := path;
                                  AstFileInfo_PackagePath := packageDir |})]>
                    (default ∅ (files pkgs)));
          packages :=
            Some (<[packageDir :=
                     {| PackageDefinitions_Name := PackageDefinitions_Name pd;
                        PackageDefinitions_Files :=
                          <[path := astFile]> (PackageDefinitions_Files pd);
                        PackageDefinitions_TypeDefinitions :=
                          PackageDefinitions_TypeDefinitions pd |}]>
                    (default ∅ (packages pkgs)));
          uniqueDefinitions := uniqueDefinitions pkgs |}.
Proof.
  intros Hne Hpd. unfold CollectAstFile.
  rewrite decide_False by by rewrite length_zero_empty.
  simpl. by rewrite map_get_default, Hpd.
Qed.

(** X2. The short name of a package record is the package name of the
    first file collected under its path: when a second file is collected
    under the same path, whatever its own package name, the record keeps the
    name of the first and lists both files. *)
Theorem X2_first_file_names_package (packageDir path1 path2 : string)
    (f1 f2 : File) (pkgs : PackagesDefinitions) :
  packageDir ≠ EmptyString →
  map_get (packages pkgs) packageDir = None →
  ∃ pkgs2,
    CollectAstFile packageDir path1 (Some f1) pkgs
      ≫= CollectAstFile packageDir path2 (Some f2) = Done pkgs2
    ∧ map_get (packages pkgs2) packageDir
      = Some {| PackageDefinitions_Name := File_Name f1;
                PackageDefinitions_Files :=
                  <[path2 := Some f2]> {[path1 := Some f1]};
                PackageDefinitions_TypeDefinitions := ∅ |}.
Proof.
  intros Hne Hfresh.
  rewrite CollectAstFile_new_package by (by rewrite ?map_get_default).
  cbn [mbind outcome_bind].
  rewrite (CollectAstFile_registered _ _ _ _
             {| PackageDefinitions_Name := File_Name f1;
                PackageDefinitions_Files := {[path1 := Some f1]};
                PackageDefinitions_TypeDefinitions := ∅ |});
    [|done|by unfold map_get; simpl; rewrite lookup_insert_eq].
  eexists. split; [done|]. unfold map_get. simpl.
  by rewrite lookup_insert_eq.
Qed.

Lemma X2_first_file_names_package_witness :
  ∃ pkgs2,
    CollectAstFile "app/models" "app/models/user.go" (Some appUser)
      NewPackagesDefinitions
      ≫= CollectAstFile "app/models" "app/models/order_test.go" (Some appOrder)
    = Done pkgs2
    ∧ map_get (packages pkgs2) "app/models"
      = Some {| PackageDefinitions_Name := "models";
                PackageDefinitions_Files :=
                  <["app/models/order_test.go" := Some appOrder]>
                    {["app/models/user.go" := Some appUser]};
                PackageDefinitions_TypeDefinitions := ∅ |}.
Proof.
  apply (X2_first_file_names_package "app/models" "app/models/user.go"
           "app/models/order_test.go" appUser appOrder NewPackagesDefinitions).
  - discriminate.
  - reflexivity.
Defined.

(** X3. Collecting is idempotent: once a file has been collected under a
    package path and a file path, collecting it again with the same
    arguments returns the same store. *)
Theorem X3_collect_idempotent (packageDir path : string) (astFile : FilePtr)
    (pkgs pkgs1 : PackagesDefinitions) :
  CollectAstFile packageDir path astFile pkgs = Done pkgs1 →
  CollectAstFile packageDir path astFile pkgs1 = Done pkgs1.
Proof.
  destruct (decide (packageDir = EmptyString)) as [->|Hne].
  { unfold CollectAstFile. simpl. intros [= <-]. simpl.
    by rewrite insert_insert_eq. }
  destruct (map_get (packages pkgs) packageDir) as [pd|] eqn:Hpd.
  - rewrite (CollectAstFile_registered _ _ _ _ pd) by done. intros [= <-].
    erewrite CollectAstFile_registered;
      [|done|by unfold map_get; simpl; rewrite lookup_insert_eq].
    simpl. by rewrite !insert_insert_eq.
  - destruct astFile as [f|].
    + rewrite CollectAstFile_new_package by (by rewrite ?map_get_default).
      intros [= <-].
      erewrite CollectAstFile_registered;
        [|done|by unfold map_get; simpl; rewrite lookup_insert_eq].
      simpl. by rewrite !insert_insert_eq, insert_singleton_eq.
    + by rewrite CollectAstFile_nil_file.
Qed.

Lemma X3_collect_idempotent_witness :
  CollectAstFile "lib/models" "lib/models/user.go" (Some libUser)
    (theStore modelsStore) = Done (theStore modelsStore).
Proof.
  apply (X3_collect_idempotent "lib/models" "lib/models/user.go" (Some libUser)
           (theStore (CollectAstFile "app/models" "app/models/user.go"
                        (Some appUser) NewPackagesDefinitions))).
  reflexivity.
Defined.

Lemma CollectAstFile_keeps_definitions (packageDir path : string)
    (astFile : FilePtr) (pkgs pkgs' : PackagesDefinitions) :
  CollectAstFile packageDir path astFile pkgs = Done pkgs' →
  uniqueDefinitions pkgs' = uniqueDefinitions pkgs
  ∧ (∀ pkgPath typeName,
       findTypeSpec pkgPath typeName pkgs' = findTypeSpec pkgPath typeName pkgs)
  ∧ (∀ pkgPath, pkgPath ≠ packageDir →
       map_get (packages pkgs') pkgPath = map_get (packages pkgs) pkgPath).
Proof.
  destruct (decide (packageDir = EmptyString)) as [->|Hne].
  { unfold CollectAstFile. simpl. by intros [= <-]. }
  assert (∀ pd', (∀ typeName,
              PackageDefinitions_TypeDefinitions pd' !! typeName
              = findTypeSpec packageDir typeName pkgs) →
            (∀ pkgPath typeName,
               findTypeSpec pkgPath typeName
                 (with_packages pkgs
                    (Some (<[packageDir := pd']> (default ∅ (packages pkgs)))))
               = findTypeSpec pkgPath typeName pkgs)
            ∧ (∀ pkgPath, pkgPath ≠ packageDir →
                 map_get (Some (<[packageDir := pd']> (default ∅ (packages pkgs))))
                   pkgPath = map_get (packages pkgs) pkgPath)) as Hframe.
  { intros pd' Hpd'. split.
    - intros pkgPath typeName. unfold findTypeSpec at 1. simpl.
      destruct (decide (packageDir = pkgPath)) as [<-|Hp].
      + by rewrite lookup_insert_eq.
      + rewrite lookup_insert_ne by done. unfold findTypeSpec.
        by destruct (packages pkgs).
    - intros pkgPath Hp. unfold map_get at 1. simpl.
      by rewrite lookup_insert_ne, map_get_default. }
  destruct (map_get (packages pkgs) packageDir) as [pd|] eqn:Hpd.
  - rewrite (CollectAstFile_registered _ _ _ _ pd) by done. intros [= <-].
    split; [done|]. apply Hframe. intros typeName. simpl.
    unfold findTypeSpec. unfold map_get in Hpd.
    destruct (packages pkgs); [|done]. simpl in Hpd. by rewrite Hpd.
  - destruct astFile as [f|];
      [|by rewrite CollectAstFile_nil_file].
    rewrite CollectAstFile_new_package by (by rewrite ?map_get_default).
    intros [= <-]. split; [done|]. apply Hframe. intros typeName. simpl.
    unfold findTypeSpec. unfold map_get in Hpd.
    destruct (packages pkgs); [|done]. simpl in Hpd. by rewrite Hpd.
Qed.

(** X4. Collecting a file never touches what a harvest has stored, nor a
    short name already given: the index is left as it was, every local map
    answers every name as before (the record made for a new package path
    starts with an empty local map), the records of the other package paths
    are unchanged, and every package path keeps the short name it had. *)
Theorem X4_collect_keeps_definitions (packageDir path : string)
    (astFile : FilePtr) (pkgs pkgs' : PackagesDefinitions) :
  CollectAstFile packageDir path astFile pkgs = Done pkgs' →
  uniqueDefinitions pkgs' = uniqueDefinitions pkgs
  ∧ (∀ pkgPath typeName,
       findTypeSpec pkgPath typeName pkgs' = findTypeSpec pkgPath typeName pkgs)
  ∧ (∀ pkgPath, pkgPath ≠ packageDir →
       map_get (packages pkgs') pkgPath = map_get (packages pkgs) pkgPath)
  ∧ (∀ pkgPath pkgName,
       registeredAs pkgs pkgPath pkgName = true →
       registeredAs pkgs' pkgPath pkgName = true).
Proof.
  intros Hc.
  pose proof (CollectAstFile_keeps_definitions _ _ _ _ _ Hc) as (Hu & Hf & Hr).
  repeat split; try done. intros pkgPath pkgName.
  destruct (decide (pkgPath = packageDir)) as [->|Hp];
    [|by unfold registeredAs; rewrite Hr].
  intros (pd & Hpd & Hn)%registeredAs_Some.
  destruct (decide (packageDir = EmptyString)) as [->|Hne].
  { unfold CollectAstFile in Hc. simpl in Hc. simplify_eq.
    apply registeredAs_Some. by exists pd. }
  rewrite (CollectAstFile_registered _ _ _ _ pd) in Hc by done.
  simplify_eq. apply registeredAs_Some. eexists.
  split; [unfold map_get; simpl; by rewrite lookup_insert_eq|done].
Qed.

Lemma X4_collect_keeps_definitions_witness :
  uniqueDefinitions
    (theStore (CollectAstFile "app/models" "app/models/order_test.go"
                 (Some appOrder) modelsHarvested.1))
  = uniqueDefinitions modelsHarvested.1
  ∧ (∀ pkgPath typeName,
       findTypeSpec pkgPath typeName
         (theStore (CollectAstFile "app/models" "app/models/order_test.go"
                      (Some appOrder) modelsHarvested.1))
       = findTypeSpec pkgPath typeName modelsHarvested.1)
  ∧ (∀ pkgPath, pkgPath ≠ "app/models" →
       map_get (packages
                  (theStore (CollectAstFile "app/models"
                               "app/models/order_test.go" (Some appOrder)
                               modelsHarvested.1))) pkgPath
       = map_get (packages modelsHarvested.1) pkgPath)
  ∧ (∀ pkgPath pkgName,
       registeredAs modelsHarvested.1 pkgPath pkgName = true →
       registeredAs
         (theStore (CollectAstFile "app/models" "app/models/order_test.go"
                      (Some appOrder) modelsHarvested.1)) pkgPath pkgName
       = true).
Proof.
  apply (X4_collect_keeps_definitions "app/models" "app/models/order_test.go"
           (Some appOrder) modelsHarvested.1).
  reflexivity.
Defined.

(** ** What a harvest stores *)

Section StoredFacts.
Context `{Primitives}.
Implicit Types (pkgs : PackagesDefinitions) (ps : ParsedSchemas).
Implicit Types (w : File * AstFileInfo * TypeSpec).
Implicit Types (ws : list (option (File * AstFileInfo * TypeSpec))).

Lemma writeTypeDefinition_lookup d pkgs pkgs' pkgPath typeName :
  writeTypeDefinition d pkgs = Done pkgs' →
  findTypeSpec pkgPath typeName pkgs' =
  if decide (pkgPath = TypeSpecDef_PkgPath d ∧ typeName = Name d)
  then Some d else findTypeSpec pkgPath typeName pkgs.
Proof.
  intros Hw. case_decide as Hd.
  - destruct Hd as [-> ->]. by eapply writeTypeDefinition_findTypeSpec.
  - destruct (decide (TypeSpecDef_PkgPath d = pkgPath)) as [<-|Hp];
      [|by eapply writeTypeDefinition_other].
    apply writeTypeDefinition_Done in Hw as (registry & pd & Hr & Hpd & _ & _ & Hr').
    unfold findTypeSpec. rewrite Hr, Hr', lookup_insert_eq, Hpd. simpl.
    rewrite lookup_insert_ne; [done|]. intros <-. by apply Hd.
Qed.

(** What a step that goes on has done to the store. *)
Lemma parseWork_effect w pkgs ps pkgs' ps' :
  parseWork (Some w) (pkgs, ps) = Continue (pkgs', ps') →
  ps' = addPrimitiveSchema (definitionOf w) ps
  ∧ files pkgs' = files pkgs
  ∧ (∀ path pkgName,
       registeredAs pkgs' path pkgName = registeredAs pkgs path pkgName)
  ∧ (is_Some (packages pkgs') ↔ is_Some (packages pkgs))
  ∧ ∃ unique,
      uniqueDefinitions pkgs = Some unique
      ∧ (pkgs' = pkgs
         ∨ (uniqueDefinitions pkgs'
              = Some (<[FullName (definitionOf w) := definitionOf w]> unique)
            ∨ uniqueDefinitions pkgs'
              = Some (delete (FullName (definitionOf w)) unique))
           ∧ ∀ pkgPath typeName,
               findTypeSpec pkgPath typeName pkgs' =
               if decide (pkgPath = TypeSpecDef_PkgPath (definitionOf w)
                          ∧ typeName = Name (definitionOf w))
               then Some (definitionOf w)
               else findTypeSpec pkgPath typeName pkgs).
Proof.
  intros Hstep. destruct (uniqueDefinitions pkgs) as [unique|] eqn:Hu.
  - destruct (parseWork_cases w pkgs ps unique Hu)
      as [another Hk Hp|unique' pkgs1 Hcase Hw|Hpanic]; simplify_eq.
    + repeat split; try done. exists unique. split; [done|by left].
    + pose proof Hw as (?&?& Hr & _ & Hf & Hu' & Hr')%writeTypeDefinition_Done.
      simpl in Hr, Hf, Hu'. split; [done|]. split; [done|].
      split; [intros path pkgName;
              by etrans; [apply (writeTypeDefinition_registeredAs _ _ _ _ _ Hw)|]|].
      split; [by rewrite Hr, Hr'; split; eauto|].
      exists unique. split; [done|]. right. split.
      * rewrite Hu'. destruct Hcase as [[_ ->]|[_ ->]]; auto.
      * intros pkgPath typeName.
        apply (writeTypeDefinition_lookup _ _ _ _ _ Hw).
  - destruct w as [[astFile info] typeSpec]. unfold parseWork in Hstep.
    cbn [fst snd] in Hstep. by rewrite parseTypeSpec_nil in Hstep.
Qed.

Lemma parseWork_Return w pkgs ps r :
  parseWork (Some w) (pkgs, ps) = Return r → r.1 = pkgs.
Proof.
  intros Hstep. destruct (uniqueDefinitions pkgs) as [unique|] eqn:Hu.
  - by destruct (parseWork_cases w pkgs ps unique Hu).
  - destruct w as [[astFile info] typeSpec]. unfold parseWork in Hstep.
    cbn [fst snd] in Hstep. rewrite parseTypeSpec_nil in Hstep by done.
    by simplify_eq.
Qed.

(** A property of the store that every step keeps is kept by the pass,
    whether it runs through or returns the error. *)
Lemma harvest_keeps (I : PackagesDefinitions → Prop) ws pkgs ps :
  I pkgs →
  (∀ w pkgs ps pkgs' ps',
     Some w ∈ ws → I pkgs →
     parseWork (Some w) (pkgs, ps) = Continue (pkgs', ps') → I pkgs') →
  match forRange parseWork ws (pkgs, ps) with
  | Continue st' => I st'.1
  | Return r => I r.1
  | Panic => True
  end.
Proof.
  intros Hinit Hstep.
  apply (forRange_invariant parseWork (λ st, I st.1) (λ r, I r.1) True);
    [done|].
  intros [w|] [pkgs0 ps0] Hin Hst; [|done]. simpl in Hst.
  destruct (parseWork (Some w) (pkgs0, ps0)) as [[pkgs' ps']|r|] eqn:Hw;
    [|by rewrite (parseWork_Return _ _ _ _ Hw)|done].
  by eapply Hstep.
Qed.

Lemma ParseTypes_keeps (I : PackagesDefinitions → Prop) pkgs pkgs' out :
  I pkgs →
  (∀ w pkgs ps pkgs' ps',
     I pkgs → parseWork (Some w) (pkgs, ps) = Continue (pkgs', ps') → I pkgs') →
  ParseTypes pkgs (Done (pkgs', out)) → I pkgs'.
Proof.
  intros Hinit Hstep (order & _ & Hr). unfold ParseTypesIn in Hr.
  rewrite forRange_parseFile in Hr.
  pose proof (harvest_keeps I (order ≫= workOf) pkgs [] Hinit) as Hinv.
  destruct (forRange parseWork _ _) as [[? ?]|[? ?]|]; simplify_eq;
    apply Hinv; eauto.
Qed.

Lemma parseWork_KeyedIndex w pkgs ps pkgs' ps' :
  KeyedIndex pkgs →
  parseWork (Some w) (pkgs, ps) = Continue (pkgs', ps') → KeyedIndex pkgs'.
Proof.
  intros Hinv (_ & _ & _ & _ & unique & Hu & [->|[Hu' _]])%parseWork_effect;
    [done|].
  unfold KeyedIndex, map_get in *. rewrite Hu in Hinv. simpl in Hinv.
  intros k e. destruct Hu' as [-> | ->]; simpl.
  - rewrite lookup_insert. case_decide; [by intros [= <-]|]. apply Hinv.
  - rewrite lookup_delete. case_decide; [done|]. apply Hinv.
Qed.

Lemma parseWork_OwnedLocal w pkgs ps pkgs' ps' :
  OwnedLocal pkgs →
  parseWork (Some w) (pkgs, ps) = Continue (pkgs', ps') → OwnedLocal pkgs'.
Proof.
  intros Hinv (_ & _ & _ & _ & unique & Hu & [->|[_ Hfind]])%parseWork_effect;
    [done|].
  intros pkgPath typeName d. rewrite Hfind.
  case_decide as Hd; [|apply Hinv]. destruct Hd as [-> ->]. by intros [= <-].
Qed.

Lemma parseWork_BackedIndex w pkgs ps pkgs' ps' :
  BackedIndex pkgs →
  parseWork (Some w) (pkgs, ps) = Continue (pkgs', ps') → BackedIndex pkgs'.
Proof.
  intros Hinv (_ & _ & _ & _ & unique & Hu & [->|[Hu' Hfind]])%parseWork_effect;
    [done|].
  unfold BackedIndex, map_get in *. rewrite Hu in Hinv. simpl in Hinv.
  assert (∀ k e, unique !! k = Some e →
            is_Some (findTypeSpec (TypeSpecDef_PkgPath e) (Name e) pkgs'))
    as Hold.
  { intros k e He. rewrite Hfind. case_decide; [by eauto|by eapply Hinv]. }
  intros k e. destruct Hu' as [-> | ->]; simpl.
  - rewrite lookup_insert. case_decide; [|by apply Hold].
    intros [= <-]. rewrite Hfind. rewrite decide_True by done. by eauto.
  - rewrite lookup_delete. case_decide; [done|]. apply Hold.
Qed.

(** The three invariants hold on every store the operations build. *)
Lemma Reachable_sound pkgs :
  Reachable pkgs → KeyedIndex pkgs ∧ OwnedLocal pkgs ∧ BackedIndex pkgs.
Proof.
  induction 1 as [| |pkgs packageDir path astFile pkgs' _ IH Hc
                  |pkgs pkgs' out _ IH Hr].
  - by repeat split.
  - by repeat split.
  - apply CollectAstFile_keeps_definitions in Hc as (Hu & Hfind & _).
    destruct IH as (Hk & Ho & Hb). unfold KeyedIndex, OwnedLocal, BackedIndex.
    rewrite Hu. setoid_rewrite Hfind. done.
  - destruct IH as (Hk & Ho & Hb). split; [|split].
    + apply (ParseTypes_keeps KeyedIndex pkgs pkgs' out); [done| |done].
      intros. by eapply parseWork_KeyedIndex.
    + apply (ParseTypes_keeps OwnedLocal pkgs pkgs' out); [done| |done].
      intros. by eapply parseWork_OwnedLocal.
    + apply (ParseTypes_keeps BackedIndex pkgs pkgs' out); [done| |done].
      intros. by eapply parseWork_BackedIndex.
Qed.

End StoredFacts.

(** X5. On every store the operations build, the index is keyed by its own
    entries and backed by the registry: an entry found under a key is a
    definition whose full name is that key, and the local map of its owning
    package holds a definition under its declared name. *)
Theorem X5_index_keyed_and_backed `{Primitives} (pkgs : PackagesDefinitions)
    (key : string) (typeDef : TypeSpecDef) :
  Reachable pkgs →
  map_get (uniqueDefinitions pkgs) key = Some typeDef →
  FullName typeDef = key
  ∧ is_Some (findTypeSpec (TypeSpecDef_PkgPath typeDef) (Name typeDef) pkgs).
Proof.
  intros (Hkeyed & _ & Hbacked)%Reachable_sound Hentry. split.
  - by apply Hkeyed.
  - by apply (Hbacked key).
Qed.

Lemma X5_index_keyed_and_backed_witness :
  FullName (definitionOf cfgWindowsDecl) = "cfg.Config"
  ∧ is_Some (findTypeSpec (TypeSpecDef_PkgPath (definitionOf cfgWindowsDecl))
               (Name (definitionOf cfgWindowsDecl)) cfgHarvested.1).
Proof.
  apply (X5_index_keyed_and_backed (H:=samplePrimitives) cfgHarvested.1).
  - apply (Reachable_harvest (theStore cfgStore) _ (inl cfgHarvested.2)).
    + apply (Reachable_collect
               (theStore (CollectAstFile "app/cfg" "app/cfg/cfg_linux.go"
                            (Some cfgLinux) NewPackagesDefinitions))
               "app/cfg" "app/cfg/cfg_windows.go" (Some cfgWindows));
        [|reflexivity].
      apply (Reachable_collect NewPackagesDefinitions
               "app/cfg" "app/cfg/cfg_linux.go" (Some cfgLinux)); [|reflexivity].
      apply Reachable_new.
    + exists (rangeFiles (theStore cfgStore)). split; [done|].
      vm_compute. reflexivity.
  - vm_compute. reflexivity.
Defined.

(** X6. On every store the operations build, a lookup in the registry
    answers with a definition of the package and of the name asked for:
    whatever [findTypeSpec] returns is owned by the package path it was
    given and declared under the type name it was given. *)
Theorem X6_lookup_owned_and_named `{Primitives} (pkgs : PackagesDefinitions)
    (pkgPath typeName : string) (typeDef : TypeSpecDef) :
  Reachable pkgs →
  findTypeSpec pkgPath typeName pkgs = Some typeDef →
  TypeSpecDef_PkgPath typeDef = pkgPath ∧ Name typeDef = typeName.
Proof.
  intros (_ & Howned & _)%Reachable_sound Hfound. by apply Howned.
Qed.

Lemma X6_lookup_owned_and_named_witness :
  TypeSpecDef_PkgPath (definitionOf libUserDecl) = "lib/models"
  ∧ Name (definitionOf libUserDecl) = "User".
Proof.
  apply (X6_lookup_owned_and_named (H:=samplePrimitives) modelsHarvested.1).
  - apply modelsHarvested_Reachable.
  - vm_compute. reflexivity.
Defined.

Section FrameFacts.
Context `{Primitives}.

Lemma find_ext {A} (p q : A → bool) (l : list A) :
  (∀ x, p x = q x) → find p l = find q l.
Proof.
  intros Hpq. induction l as [|x l IH]; simpl; [done|]. by rewrite Hpq, IH.
Qed.

(** The scans of the imports read the short names of the registry and
    nothing else. *)
Lemma findPackagePathFromImports_registeredAs pkgs pkgs' pkgName file :
  (∀ path name, registeredAs pkgs' path name = registeredAs pkgs path name) →
  findPackagePathFromImports pkgName file pkgs'
  = findPackagePathFromImports pkgName file pkgs.
Proof.
  intros Hreg. destruct file as [f|]; [|done].
  rewrite !findPackagePathFromImports_spec. unfold resolveQualifier_spec.
  rewrite (find_ext (matchesImport pkgs' (qualifierOf pkgName))
             (matchesImport pkgs (qualifierOf pkgName))).
  - rewrite (find_ext (matchesAnonymous pkgs' (qualifierOf pkgName))
               (matchesAnonymous pkgs (qualifierOf pkgName))); [done|].
    intros imp. unfold matchesAnonymous. by rewrite Hreg.
  - intros imp. unfold matchesImport. by rewrite Hreg.
Qed.

End FrameFacts.

(** X7. A harvest that returns, normally or with the error, changes
    nothing but the index and the local maps, and the local maps only grow:
    the collected files are the same, every package path has the short name
    it had, so every qualifier resolves through the imports of every file
    to the same package path as before, and a name that a local map
    answered is still answered. *)
Theorem X7_harvest_frame `{Primitives} (pkgs pkgs' : PackagesDefinitions)
    (out : ParsedSchemas + string) :
  ParseTypes pkgs (Done (pkgs', out)) →
  files pkgs' = files pkgs
  ∧ (∀ path pkgName,
       registeredAs pkgs' path pkgName = registeredAs pkgs path pkgName)
  ∧ (∀ pkgName file,
       findPackagePathFromImports pkgName file pkgs'
       = findPackagePathFromImports pkgName file pkgs)
  ∧ (∀ pkgPath typeName,
       is_Some (findTypeSpec pkgPath typeName pkgs) →
       is_Some (findTypeSpec pkgPath typeName pkgs')).
Proof.
  intros Hrun.
  assert (files pkgs' = files pkgs
          ∧ (∀ path pkgName,
               registeredAs pkgs' path pkgName = registeredAs pkgs path pkgName)
          ∧ (∀ pkgPath typeName,
               is_Some (findTypeSpec pkgPath typeName pkgs) →
               is_Some (findTypeSpec pkgPath typeName pkgs')))
    as (Hfiles & Hnames & Hgrow).
  { apply (ParseTypes_keeps
             (λ p, files p = files pkgs
                   ∧ (∀ path pkgName,
                        registeredAs p path pkgName = registeredAs pkgs path pkgName)
                   ∧ (∀ pkgPath typeName,
                        is_Some (findTypeSpec pkgPath typeName pkgs) →
                        is_Some (findTypeSpec pkgPath typeName p)))
             pkgs pkgs' out); [done| |done].
    intros w p ps p' ps' (Hf & Hn & Hg)
      (_ & Hf' & Hn' & _ & unique & _ & Hcase)%parseWork_effect.
    split; [congruence|]. split; [intros; by rewrite Hn'|].
    intros pkgPath typeName Hold. destruct Hcase as [->|[_ Hfind]]; [by auto|].
    rewrite Hfind. case_decide; [by eauto|by auto]. }
  repeat split; try done.
  intros pkgName file. by apply findPackagePathFromImports_registeredAs.
Qed.

Lemma X7_harvest_frame_witness :
  files modelsHarvested.1 = files (theStore modelsStore)
  ∧ (∀ path pkgName,
       registeredAs modelsHarvested.1 path pkgName
       = registeredAs (theStore modelsStore) path pkgName)
  ∧ (∀ pkgName file,
       findPackagePathFromImports pkgName file modelsHarvested.1
       = findPackagePathFromImports pkgName file (theStore modelsStore))
  ∧ (∀ pkgPath typeName,
       is_Some (findTypeSpec pkgPath typeName (theStore modelsStore)) →
       is_Some (findTypeSpec pkgPath typeName modelsHarvested.1)).
Proof.
  apply (X7_harvest_frame (H:=samplePrimitives) (theStore modelsStore)
           modelsHarvested.1 (inl modelsHarvested.2)).
  exists (rangeFiles (theStore modelsStore)). split; [done|].
  vm_compute. reflexivity.
Defined.

(** ** What a harvest returns *)

Section SchemaFacts.
Context `{Primitives}.

Lemma addPrimitiveSchema_schemaEntry (w : File * AstFileInfo * TypeSpec)
    (ps : ParsedSchemas) :
  addPrimitiveSchema (definitionOf w) ps
  = from_option (λ e, e :: ps) ps (schemaEntry (Some w)).
Proof.
  unfold addPrimitiveSchema, schemaEntry. simpl.
  destruct (TypeSpec_Type w.2) as [idt|]; [|done].
  by destruct (IsGolangPrimitiveType idt).
Qed.

(** A pass that runs through has put the schema entries of its units of
    work in front of the schemas it started with, the latest first. *)
Lemma harvest_schemas ws (pkgs pkgs' : PackagesDefinitions)
    (ps ps' : ParsedSchemas) :
  forRange parseWork ws (pkgs, ps) = Continue (pkgs', ps') →
  ps' = (reverse (omap schemaEntry ws) ++ ps)%list.
Proof.
  revert pkgs ps. induction ws as [|x ws IH]; intros pkgs ps Hrun.
  { by simplify_eq/=. }
  cbn [forRange] in Hrun. destruct x as [w|]; [|done].
  destruct (parseWork (Some w) (pkgs, ps)) as [[pkgs1 ps1]| |] eqn:Hstep;
    [|done..].
  apply parseWork_effect in Hstep as (-> & _).
  rewrite (IH _ _ Hrun), addPrimitiveSchema_schemaEntry.
  cbn [omap list_omap]. destruct (schemaEntry (Some w)) as [e|]; simpl; [|done].
  by rewrite reverse_cons, <- app_assoc.
Qed.

End SchemaFacts.

(** X8. The schemas a harvest returns are those of the declarations whose
    type is the name of a primitive, one for each such declaration of the
    collection and nothing else, whatever became of the declaration in the
    index: up to the order of the visit, the result is the list of the
    schema entries of the type declarations of the collected files. *)
Theorem X8_harvest_schemas `{Primitives} (pkgs pkgs' : PackagesDefinitions)
    (out : ParsedSchemas) :
  ParseTypes pkgs (Done (pkgs', inl out)) →
  out ≡ₚ omap schemaEntry (rangeFiles pkgs ≫= workOf).
Proof.
  intros (order & Hperm & Hrun). unfold ParseTypesIn in Hrun.
  rewrite forRange_parseFile in Hrun.
  destruct (forRange parseWork (order ≫= workOf) (pkgs, []))
    as [[pkgs1 out1]|[? ?]|] eqn:Hpass; simplify_eq.
  apply harvest_schemas in Hpass as ->.
  rewrite app_nil_r, reverse_Permutation. by rewrite Hperm.
Qed.

Lemma X8_harvest_schemas_witness :
  cfgHarvested.2
  ≡ₚ omap (schemaEntry (H:=samplePrimitives))
       (rangeFiles (theStore cfgStore) ≫= workOf).
Proof.
  apply (X8_harvest_schemas (H:=samplePrimitives) (theStore cfgStore)
           cfgHarvested.1 cfgHarvested.2).
  exists (rangeFiles (theStore cfgStore)). split; [done|].
  vm_compute. reflexivity.
Defined.

(** X9. A harvest invents nothing: after it has returned, every entry of
    the index and every entry of a local map either was there before the
    harvest or is the definition built for a type declaration of a
    collected file, owned by the package path the file was collected
    under. *)
Theorem X9_harvest_provenance `{Primitives} (pkgs pkgs' : PackagesDefinitions)
    (out : ParsedSchemas + string) :
  ParseTypes pkgs (Done (pkgs', out)) →
  let harvested d :=
    ∃ f info t, (Some f, info) ∈ rangeFiles pkgs ∧ t ∈ typeSpecsOfFile f
                ∧ d = {| TypeSpecDef_PkgPath := AstFileInfo_PackagePath info;
                         TypeSpecDef_File := f; TypeSpecDef_TypeSpec := t |} in
  (∀ key d, map_get (uniqueDefinitions pkgs') key = Some d →
            map_get (uniqueDefinitions pkgs) key = Some d ∨ harvested d)
  ∧ (∀ pkgPath typeName d,
       findTypeSpec pkgPath typeName pkgs' = Some d →
       findTypeSpec pkgPath typeName pkgs = Some d ∨ harvested d).
Proof.
  intros (order & Hperm & Hrun) harvested. unfold ParseTypesIn in Hrun.
  rewrite forRange_parseFile in Hrun.
  pose proof (harvest_keeps
    (λ p, (∀ key d, map_get (uniqueDefinitions p) key = Some d →
                    map_get (uniqueDefinitions pkgs) key = Some d ∨ harvested d)
          ∧ (∀ pkgPath typeName d,
               findTypeSpec pkgPath typeName p = Some d →
               findTypeSpec pkgPath typeName pkgs = Some d ∨ harvested d))
    (order ≫= workOf) pkgs []) as Hinv.
  destruct (forRange parseWork _ _) as [[? ?]|[? ?]|]; simplify_eq;
    apply Hinv; clear Hinv; try (split; by auto).
  all: intros [[f info] t] p ps p' ps' Hin [Hidx Hloc]
         (_ & _ & _ & _ & unique & Hu & Hcase)%parseWork_effect;
       destruct Hcase as [->|[Hu' Hfind]]; [done|];
       (assert (harvested (definitionOf (f, info, t))) as Hnew;
        [apply work_Some in Hin as [Hin Ht]; rewrite Hperm in Hin;
         by exists f, info, t|]);
       split;
       [intros key d; unfold map_get in Hidx |- *; rewrite Hu in Hidx;
        simpl in Hidx;
        destruct Hu' as [-> | ->]; simpl;
        [rewrite lookup_insert; case_decide; [by intros [= <-]; right|by auto]
        |rewrite lookup_delete; case_decide; [done|by auto]]
       |intros pkgPath typeName d; rewrite Hfind;
        case_decide; [by intros [= <-]; right|by auto]].
Qed.

Lemma X9_harvest_provenance_witness :
  let harvested d :=
    ∃ f info t, (Some f, info) ∈ rangeFiles (theStore modelsStore)
                ∧ t ∈ typeSpecsOfFile f
                ∧ d = {| TypeSpecDef_PkgPath := AstFileInfo_PackagePath info;
                         TypeSpecDef_File := f; TypeSpecDef_TypeSpec := t |} in
  (∀ key d, map_get (uniqueDefinitions modelsHarvested.1) key = Some d →
            map_get (uniqueDefinitions (theStore modelsStore)) key = Some d
            ∨ harvested d)
  ∧ (∀ pkgPath typeName d,
       findTypeSpec pkgPath typeName modelsHarvested.1 = Some d →
       findTypeSpec pkgPath typeName (theStore modelsStore) = Some d
       ∨ harvested d).
Proof.
  apply (X9_harvest_provenance (H:=samplePrimitives) (theStore modelsStore)
           modelsHarvested.1 (inl modelsHarvested.2)).
  exists (rangeFiles (theStore modelsStore)). split; [done|].
  vm_compute. reflexivity.
Defined.

(** ** What the resolver returns *)

Section DotImportFacts.
Implicit Types (pkgs : PackagesDefinitions) (imports : list ImportSpec).

Lemma findInDotImports_first typeName imports pkgs :
  findInDotImports typeName imports pkgs
  = firstDotImport typeName imports pkgs
    ≫= λ imp, findTypeSpec (importPath imp) typeName pkgs.
Proof.
  unfold firstDotImport. induction imports as [|imp imports IH]; simpl; [done|].
  destruct (bool_decide (ImportSpec_Name imp = Some ".")); simpl; [|done].
  destruct (findTypeSpec (importPath imp) typeName pkgs) as [d|] eqn:Hd.
  - rewrite bool_decide_eq_true_2 by by eauto. simpl. by rewrite Hd.
  - rewrite bool_decide_eq_false_2; [done|]. by intros [? [=]].
Qed.

Lemma findInDotImports_Some typeName imports pkgs d :
  findInDotImports typeName imports pkgs = Some d →
  ∃ imp, imp ∈ imports ∧ ImportSpec_Name imp = Some "."
         ∧ findTypeSpec (importPath imp) typeName pkgs = Some d.
Proof.
  rewrite findInDotImports_first. unfold firstDotImport.
  destruct (find _ imports) as [imp|] eqn:Hfind; [|done]. simpl. intros Hd.
  apply find_some in Hfind as [Hin [Hdot _]%andb_true_iff].
  exists imp. split; [by apply list_elem_of_In|].
  split; [by apply bool_decide_eq_true in Hdot|done].
Qed.

End DotImportFacts.

(** X10. The resolver answers with what was asked for. On every store the
    operations build, a definition returned by [FindTypeSpec] is never
    returned for a primitive name and is either an entry of the index whose
    full name is the key looked up (the reference itself, or for a bare
    reference the short name of the context with the reference) or a
    definition of the registry declared under the type name of the
    reference. *)
Theorem X10_resolver_sound `{Primitives} (pkgs : PackagesDefinitions)
    (reference : string) (file : FilePtr) (typeDef : TypeSpecDef) :
  Reachable pkgs →
  FindTypeSpec reference file pkgs = Done (Some typeDef) →
  IsGolangPrimitiveType reference = false
  ∧ match file with
    | None => FullName typeDef = reference
    | Some f =>
        if strings.ContainsRune reference dot
        then FullName typeDef = reference
             ∨ Name typeDef = typeNameOf reference
        else FullName typeDef = fullTypeName (File_Name f) reference
             ∨ Name typeDef = reference
    end.
Proof.
  intros (Hkeyed & Howned & _)%Reachable_sound. unfold FindTypeSpec.
  destruct (IsGolangPrimitiveType reference); [done|]. intros Hfound.
  split; [done|]. destruct file as [f|];
    [|apply Hkeyed; by simplify_eq].
  destruct (strings.ContainsRune reference dot) eqn:Hdot.
  - unfold index in Hfound.
    rewrite (qualifierOf_head _ Hdot), (typeNameOf_second _ Hdot) in Hfound.
    cbn [mbind outcome_bind from_option isAliasPkgName] in Hfound.
    destruct (if existsb _ _ then _ else _) as [d|] eqn:Hshortcut.
    { simplify_eq. left. apply Hkeyed. by destruct (existsb _ _). }
    right. unfold findQualified in Hfound.
    destruct (if _ && _ then _ else _) as [pkgPath|]; [|done].
    cbn [mbind outcome_bind] in Hfound.
    assert (∀ p, Done (findTypeSpec p (typeNameOf reference) pkgs)
                 = Done (Some typeDef) → Name typeDef = typeNameOf reference)
      as Hregistry.
    { intros p [= Hp]. by apply Howned in Hp as [_ ?]. }
    destruct (decide (pkgPath = EmptyString)); [|by eauto].
    destruct (map_get (packages pkgs) _) as [pd|] eqn:Hpd; [|by eauto].
    destruct (PackageDefinitions_TypeDefinitions pd !! _) as [d|] eqn:Hd;
      [|by eauto].
    simplify_eq. apply (Howned ("pkg/" ++ qualifierOf reference)).
    unfold findTypeSpec. unfold map_get in Hpd.
    destruct (packages pkgs); [|done]. simpl in Hpd. by rewrite Hpd.
  - destruct (map_get (uniqueDefinitions pkgs) _) as [d|] eqn:Hshortcut.
    { simplify_eq. left. by apply Hkeyed. }
    right. destruct (map_get (files pkgs) _) as [entry|]; [|done].
    cbn [mbind outcome_bind from_option] in Hfound.
    destruct (findTypeSpec _ reference pkgs) as [d|] eqn:Hown.
    { simplify_eq. by apply Howned in Hown as [_ ?]. }
    simplify_eq.
    match goal with
    | Hdots : findInDotImports _ _ _ = _ |- _ =>
        apply findInDotImports_Some in Hdots as (imp & _ & _ & Hd)
    end.
    by apply Howned in Hd as [_ ?].
Qed.

Lemma X10_resolver_sound_witness :
  IsGolangPrimitiveType (Primitives:=samplePrimitives) "models.User" = false
  ∧ (FullName (definitionOf appUserDecl) = "models.User"
     ∨ Name (definitionOf appUserDecl) = typeNameOf "models.User").
Proof.
  apply (X10_resolver_sound (H:=samplePrimitives) modelsHarvested.1
           "models.User" (Some appHandlers) (definitionOf appUserDecl)).
  - apply modelsHarvested_Reachable.
  - vm_compute. reflexivity.
Defined.

(** ** Harvest, then resolve *)

Lemma ContainsRune_app (p n : string) (sep : ascii) :
  strings.ContainsRune (p ++ String sep n) sep = true.
Proof.
  induction p as [|c p IH]; simpl; [by rewrite Ascii.eqb_refl|].
  by destruct (Ascii.eqb c sep).
Qed.

Lemma Split_app (p n : string) (sep : ascii) :
  strings.ContainsRune p sep = false →
  strings.Split (p ++ String sep n) sep = p :: strings.Split n sep.
Proof.
  induction p as [|c p IH]; simpl; [by rewrite Ascii.eqb_refl|].
  destruct (Ascii.eqb c sep); [done|]. intros Hp. by rewrite (IH Hp).
Qed.

(** The key of the index splits back into the short name it was built
    from, when the short name has no dot. *)
Lemma qualifierOf_fullTypeName (pkgName typeName : string) :
  strings.ContainsRune pkgName dot = false →
  qualifierOf (fullTypeName pkgName typeName) = pkgName.
Proof.
  intros Hp. unfold qualifierOf, fullTypeName.
  by rewrite ContainsRune_app, Split_app.
Qed.

Section RoundTripFacts.
Context `{Primitives}.

(** After the harvest of a collection without conflicts on a fresh index,
    the index holds, under the key of every declaration, a definition with
    that full name owned by the package of the declaration. *)
Lemma harvest_indexes_declaration pkgs pkgs1 out f info t :
  uniqueDefinitions pkgs = Some ∅ →
  NonConflicting (rangeFiles pkgs ≫= workOf) →
  ParseTypes pkgs (Done (pkgs1, inl out)) →
  (Some f, info) ∈ rangeFiles pkgs → t ∈ typeSpecsOfFile f →
  ∃ e, map_get (uniqueDefinitions pkgs1)
         (fullTypeName (File_Name f) (TypeSpec_Name t)) = Some e
       ∧ FullName e = fullTypeName (File_Name f) (TypeSpec_Name t)
       ∧ TypeSpecDef_PkgPath e = AstFileInfo_PackagePath info.
Proof.
  intros Hu Hnc Hrun Hin Ht.
  assert (KeyedIndex pkgs1) as Hkeyed.
  { apply (ParseTypes_keeps KeyedIndex pkgs pkgs1 (inl out)); [|  |done].
    - intros k e. unfold map_get. by rewrite Hu.
    - intros. by eapply parseWork_KeyedIndex. }
  destruct Hrun as (order & Hperm & Hrun). unfold ParseTypesIn in Hrun.
  rewrite forRange_parseFile in Hrun.
  destruct (forRange parseWork (order ≫= workOf) (pkgs, []))
    as [[pkgs1' out1']|[? ?]|] eqn:Hfirst; simplify_eq.
  assert (∀ x, x ∈ order ≫= workOf ↔ x ∈ rangeFiles pkgs ≫= workOf) as Hsame.
  { intros x. rewrite !list_elem_of_bind. by setoid_rewrite Hperm. }
  destruct (first_pass_indexes (order ≫= workOf) (order ≫= workOf)
              pkgs [] pkgs1 out) as (_ & _ & _ & Hall); try done.
  - intros w1 w2 ?%Hsame ?%Hsame. by apply Hnc.
  - intros w e _. unfold map_get. by rewrite Hu.
  - destruct (Hall (Some (f, info, t))) as (w & [= <-] & e & He & Hp).
    { apply Hsame, work_Some. done. }
    exists e. split; [done|]. split; [by apply Hkeyed|done].
Qed.

End RoundTripFacts.

(** X11. What is harvested can be resolved. After the harvest of a
    collection without conflicts on a fresh index, a type declared in a
    collected file, under a name that has no dot and is not a primitive
    name, resolves from its own file by its bare name: the resolver returns
    a definition with the full name of the declaration, owned by the package
    path the file was collected under. *)
Theorem X11_harvested_resolves_bare `{Primitives}
    (pkgs pkgs1 : PackagesDefinitions) (out : ParsedSchemas) (f : File)
    (info : AstFileInfo) (t : TypeSpec) :
  uniqueDefinitions pkgs = Some ∅ →
  NonConflicting (rangeFiles pkgs ≫= workOf) →
  ParseTypes pkgs (Done (pkgs1, inl out)) →
  (Some f, info) ∈ rangeFiles pkgs → t ∈ typeSpecsOfFile f →
  IsGolangPrimitiveType (TypeSpec_Name t) = false →
  strings.ContainsRune (TypeSpec_Name t) dot = false →
  ∃ e, FindTypeSpec (TypeSpec_Name t) (Some f) pkgs1 = Done (Some e)
       ∧ FullName e = fullTypeName (File_Name f) (TypeSpec_Name t)
       ∧ TypeSpecDef_PkgPath e = AstFileInfo_PackagePath info.
Proof.
  intros Hu Hnc Hrun Hin Ht Hprim Hdot.
  destruct (harvest_indexes_declaration pkgs pkgs1 out f info t)
    as (e & He & Hkey & Hpath); try done.
  exists e. split; [|done]. unfold FindTypeSpec.
  by rewrite Hprim, Hdot, He.
Qed.

Lemma X11_harvested_resolves_bare_witness :
  ∃ e, FindTypeSpec (H:=samplePrimitives) "Config" (Some cfgLinux)
         cfgHarvested.1 = Done (Some e)
       ∧ FullName e = fullTypeName "cfg" "Config"
       ∧ TypeSpecDef_PkgPath e = "app/cfg".
Proof.
  apply (X11_harvested_resolves_bare (H:=samplePrimitives) (theStore cfgStore)
           cfgHarvested.1 cfgHarvested.2 cfgLinux cfgLinuxDecl.1.2
           cfgLinuxDecl.2).
  - reflexivity.
  - intros w1 w2 H1 H2 _. vm_compute in H1, H2.
    apply elem_of_cons in H1 as [H1|H1];
      [|apply elem_of_cons in H1 as [H1|H1];
        [|by apply not_elem_of_nil in H1]];
    (apply elem_of_cons in H2 as [H2|H2];
      [|apply elem_of_cons in H2 as [H2|H2];
        [|by apply not_elem_of_nil in H2]]);
    injection H1 as ->; injection H2 as ->; reflexivity.
  - exists (rangeFiles (theStore cfgStore)). split; [done|].
    vm_compute. reflexivity.
  - vm_compute. right. left.
  - vm_compute. left.
  - vm_compute. reflexivity.
  - vm_compute. reflexivity.
Defined.

(** X12. After the harvest of a collection without conflicts on a fresh
    index, the reference made of the package short name of a declaring file
    (a name without dot), a dot and the declared name resolves from every
    context that gives that short name to no import as an alias, whether or
    not the context imports the package: the resolver returns a definition
    with that full name, owned by the package path the declaring file was
    collected under. *)
Theorem X12_harvested_resolves_qualified `{Primitives}
    (pkgs pkgs1 : PackagesDefinitions) (out : ParsedSchemas) (f ctx : File)
    (info : AstFileInfo) (t : TypeSpec) :
  uniqueDefinitions pkgs = Some ∅ →
  NonConflicting (rangeFiles pkgs ≫= workOf) →
  ParseTypes pkgs (Done (pkgs1, inl out)) →
  (Some f, info) ∈ rangeFiles pkgs → t ∈ typeSpecsOfFile f →
  let reference := fullTypeName (File_Name f) (TypeSpec_Name t) in
  IsGolangPrimitiveType reference = false →
  strings.ContainsRune (File_Name f) dot = false →
  isAliasPkgName (Some ctx) (File_Name f) = Done false →
  ∃ e, FindTypeSpec reference (Some ctx) pkgs1 = Done (Some e)
       ∧ FullName e = reference
       ∧ TypeSpecDef_PkgPath e = AstFileInfo_PackagePath info.
Proof.
  intros Hu Hnc Hrun Hin Ht reference Hprim Hdot [= Halias].
  destruct (harvest_indexes_declaration pkgs pkgs1 out f info t)
    as (e & He & Hkey & Hpath); try done.
  exists e. split; [|done].
  rewrite FindTypeSpec_dotted; [|done|apply ContainsRune_app].
  unfold reference. rewrite qualifierOf_fullTypeName by done.
  unfold declaresAlias. by rewrite Halias, He.
Qed.

Lemma X12_harvested_resolves_qualified_witness :
  ∃ e, FindTypeSpec (H:=samplePrimitives) (fullTypeName "cfg" "Config")
         (Some appHandlers) cfgHarvested.1 = Done (Some e)
       ∧ FullName e = fullTypeName "cfg" "Config"
       ∧ TypeSpecDef_PkgPath e = "app/cfg".
Proof.
  apply (X12_harvested_resolves_qualified (H:=samplePrimitives)
           (theStore cfgStore) cfgHarvested.1 cfgHarvested.2 cfgLinux
           appHandlers cfgLinuxDecl.1.2 cfgLinuxDecl.2).
  - reflexivity.
  - intros w1 w2 H1 H2 _. vm_compute in H1, H2.
    apply elem_of_cons in H1 as [H1|H1];
      [|apply elem_of_cons in H1 as [H1|H1];
        [|by apply not_elem_of_nil in H1]];
    (apply elem_of_cons in H2 as [H2|H2];
      [|apply elem_of_cons in H2 as [H2|H2];
        [|by apply not_elem_of_nil in H2]]);
    injection H1 as ->; injection H2 as ->; reflexivity.
  - exists (rangeFiles (theStore cfgStore)). split; [done|].
    vm_compute. reflexivity.
  - vm_compute. right. left.
  - vm_compute. left.
  - vm_compute. reflexivity.
  - vm_compute. reflexivity.
  - vm_compute. reflexivity.
Defined.

(** ** Bare references and dot-imports *)

(** X13. A bare reference that is neither in the index under the short
    name of its context nor declared in the package of its context is looked
    up through the dot-imports of the context, in declaration order: the
    result is the definition found in the package of the first dot-import
    that declares the name, whatever later dot-imports declare, and nothing
    when no dot-import declares it. Imports that are not dot-imports are
    never consulted. *)
Theorem X13_dot_import_first_hit `{Primitives} (reference : string) (f : File)
    (entry : FilePtr * AstFileInfo) (pkgs : PackagesDefinitions) :
  IsGolangPrimitiveType reference = false →
  strings.ContainsRune reference dot = false →
  map_get (files pkgs) (ptr_key (Some f)) = Some entry →
  map_get (uniqueDefinitions pkgs) (fullTypeName (File_Name f) reference)
  = None →
  findTypeSpec (AstFileInfo_PackagePath entry.2) reference pkgs = None →
  FindTypeSpec reference (Some f) pkgs
  = Done (firstDotImport reference (File_Imports f) pkgs
          ≫= λ imp, findTypeSpec (importPath imp) reference pkgs)
  ∧ (∀ before imp after d,
       File_Imports f = (before ++ imp :: after)%list →
       ImportSpec_Name imp = Some "." →
       findTypeSpec (importPath imp) reference pkgs = Some d →
       (∀ earlier, earlier ∈ before → ImportSpec_Name earlier = Some "." →
          findTypeSpec (importPath earlier) reference pkgs = None) →
       FindTypeSpec reference (Some f) pkgs = Done (Some d))
  ∧ ((∀ imp, imp ∈ File_Imports f → ImportSpec_Name imp = Some "." →
        findTypeSpec (importPath imp) reference pkgs = None) →
     FindTypeSpec reference (Some f) pkgs = Done None).
Proof.
  intros Hprim Hdot Hentry Hindex Hown.
  assert (FindTypeSpec reference (Some f) pkgs
          = Done (findInDotImports reference (File_Imports f) pkgs)) as ->.
  { unfold FindTypeSpec. rewrite Hprim, Hdot, Hindex, Hentry.
    cbn [mbind outcome_bind from_option]. by rewrite Hown. }
  split; [by rewrite findInDotImports_first|]. split.
  - intros before imp after d -> Hname Hd Hbefore. f_equal.
    induction before as [|earlier before IH]; simpl.
    + by rewrite bool_decide_eq_true_2, Hd.
    + destruct (bool_decide (ImportSpec_Name earlier = Some ".")) eqn:Hearlier.
      * apply bool_decide_eq_true in Hearlier.
        rewrite (Hbefore earlier) by (done || left).
        apply IH. intros e He. apply Hbefore. by right.
      * apply IH. intros e He. apply Hbefore. by right.
  - intros Hnone. f_equal.
    induction (File_Imports f) as [|imp imports IH]; simpl; [done|].
    destruct (bool_decide (ImportSpec_Name imp = Some ".")) eqn:Himp.
    + apply bool_decide_eq_true in Himp.
      rewrite (Hnone imp) by (done || left).
      apply IH. intros i Hi. apply Hnone. by right.
    + apply IH. intros i Hi. apply Hnone. by right.
Qed.

Lemma X13_dot_import_first_hit_witness :
  FindTypeSpec (H:=samplePrimitives) "User" (Some dotting) dottingHarvested.1
  = Done (Some (definitionOf libUserDecl)).
Proof.
  refine (proj1 (proj2 (X13_dot_import_first_hit (H:=samplePrimitives) "User"
    dotting (registration dotting "app/handlers/dot.go" "app/handlers")
    dottingHarvested.1 _ _ _ _ _))
    [namedImport "." "vendor/pq"] (namedImport "." "lib/models")
    [namedImport "." "app/models"] (definitionOf libUserDecl) _ _ _ _).
  - vm_compute. reflexivity.
  - vm_compute. reflexivity.
  - vm_compute. reflexivity.
  - vm_compute. reflexivity.
  - vm_compute. reflexivity.
  - reflexivity.
  - reflexivity.
  - vm_compute. reflexivity.
  - intros earlier Hin _. apply list_elem_of_singleton in Hin as ->.
    vm_compute. reflexivity.
Defined.

(** ** Qualifiers that no import resolves *)

(** X14. Only the first segment of the package name given to the scan of
    the imports counts: a name made of a segment without dot, a dot and
    anything else resolves to the package path the segment alone resolves
    to. *)
Theorem X14_first_segment_resolves (pkgName rest : string) (file : FilePtr)
    (pkgs : PackagesDefinitions) :
  strings.ContainsRune pkgName dot = false →
  findPackagePathFromImports (fullTypeName pkgName rest) file pkgs
  = findPackagePathFromImports pkgName file pkgs.
Proof.
  intros Hdot. destruct file as [f|]; [|done].
  unfold findPackagePathFromImports.
  rewrite qualifierOf_fullTypeName by done.
  unfold qualifierOf. by rewrite Hdot.
Qed.

Lemma X14_first_segment_resolves_witness :
  findPackagePathFromImports (fullTypeName "models" "User.Name")
    (Some appHandlers) modelsHarvested.1
  = findPackagePathFromImports "models" (Some appHandlers) modelsHarvested.1.
Proof.
  apply (X14_first_segment_resolves "models" "User.Name" (Some appHandlers)
           modelsHarvested.1).
  reflexivity.
Defined.

(** X15. When no import of the context resolves the qualifier of a dotted
    reference and the shortcut through the index has not answered, the
    qualifier is tried as the short name of the context itself and then as a
    pseudo-package. If the qualifier is the package name of the context, the
    package path the context was collected under is used: the resolver
    panics when the context was never collected, and looks the type name up
    in the package of the context when that path is not empty. Otherwise, if
    the registry has a record under the path made of pkg/ and the qualifier
    that declares the type name, that definition is returned. *)
Theorem X15_unresolved_qualifier `{Primitives} (reference : string) (f : File)
    (pkgs : PackagesDefinitions) :
  IsGolangPrimitiveType reference = false →
  strings.ContainsRune reference dot = true →
  let qualifier := qualifierOf reference in
  let typeName := typeNameOf reference in
  findPackagePathFromImports qualifier (Some f) pkgs = EmptyString →
  (if declaresAlias f qualifier then None
   else map_get (uniqueDefinitions pkgs) reference) = None →
  (qualifier = File_Name f →
   (map_get (files pkgs) (ptr_key (Some f)) = None →
    FindTypeSpec reference (Some f) pkgs = Panics)
   ∧ (∀ entry, map_get (files pkgs) (ptr_key (Some f)) = Some entry →
        AstFileInfo_PackagePath entry.2 ≠ EmptyString →
        FindTypeSpec reference (Some f) pkgs
        = Done (findTypeSpec (AstFileInfo_PackagePath entry.2) typeName pkgs)))
  ∧ (qualifier ≠ File_Name f →
     ∀ d, findTypeSpec ("pkg/" ++ qualifier) typeName pkgs = Some d →
          FindTypeSpec reference (Some f) pkgs = Done (Some d)).
Proof.
  intros Hprim Hdot qualifier typeName Hpath Hshortcut.
  rewrite FindTypeSpec_dotted by done. fold qualifier typeName.
  rewrite Hshortcut. unfold findQualified. rewrite Hpath. simpl.
  split.
  - intros Hself. rewrite bool_decide_eq_true_2 by done. split.
    + by intros ->.
    + intros entry -> Hne. cbn [mbind outcome_bind from_option].
      by rewrite decide_False.
  - intros Hself d Hd. rewrite bool_decide_eq_false_2 by done.
    cbn [mbind outcome_bind]. rewrite decide_True by done.
    unfold findTypeSpec in Hd. unfold map_get.
    destruct (packages pkgs) as [registry|]; [|done]. simpl.
    destruct (registry !! ("pkg/" ++ qualifier)) as [pd|]; [|done].
    by rewrite Hd.
Qed.

Lemma X15_unresolved_qualifier_witness :
  FindTypeSpec (H:=samplePrimitives) "handlers.User" (Some libHandlers)
    modelsHarvested.1 = Panics.
Proof.
  refine (proj1 (proj1 (X15_unresolved_qualifier (H:=samplePrimitives)
    "handlers.User" libHandlers modelsHarvested.1 _ _ _ _) _) _).
  - vm_compute. reflexivity.
  - vm_compute. reflexivity.
  - vm_compute. reflexivity.
  - vm_compute. reflexivity.
  - vm_compute. reflexivity.
  - vm_compute. reflexivity.
Defined.

(** ** Ranging over the files *)

Section RangeFacts.
Context {S E : Type}.
Implicit Types (order : list (FilePtr * AstFileInfo)).
Implicit Types (handle : string → FilePtr → S → S * option E).

(** The visit stops at the first entry on which the handler returns an
    error: the entries before it have been handled in turn, the entries
    after it are not handled at all. *)
Lemma RangeFilesIn_stops order handle s s' err :
  RangeFilesIn order handle s = (s', Some err) →
  ∃ before entry after sb,
    order = (before ++ entry :: after)%list
    ∧ RangeFilesIn before handle s = (sb, None)
    ∧ handle (AstFileInfo_Path entry.2) entry.1 sb = (s', Some err).
Proof.
  revert s. induction order as [|entry order IH]; intros s; simpl; [done|].
  destruct (handle (AstFileInfo_Path entry.2) entry.1 s) as [s1 [e|]] eqn:Hh.
  - intros [= <- <-]. by exists [], entry, order, s.
  - intros (before & entry' & after & sb & -> & Hb & He)%IH.
    exists (entry :: before), entry', after, sb. simpl. by rewrite Hh.
Qed.

Lemma RangeFilesIn_all order handle s s' :
  RangeFilesIn order handle s = (s', None) →
  s' = foldl (λ s entry, (handle (AstFileInfo_Path entry.2) entry.1 s).1) s
         order
  ∧ ∀ entry, entry ∈ order →
      ∃ se, (handle (AstFileInfo_Path entry.2) entry.1 se).2 = None.
Proof.
  revert s. induction order as [|entry order IH]; intros s; simpl.
  { intros [= <-]. split; [done|]. by intros ? ?%not_elem_of_nil. }
  destruct (handle (AstFileInfo_Path entry.2) entry.1 s) as [s1 [e|]] eqn:Hh;
    [done|].
  intros [-> Hall]%IH. split; [done|].
  intros e [->|He]%elem_of_cons; [|by auto]. exists s. by rewrite Hh.
Qed.

End RangeFacts.

(** X16. [RangeFiles] hands every collected file to the handler, with the
    file path it was last collected under, until the handler returns an
    error, and returns that error. For a handler whose verdict on a file
    does not depend on what it has handled before, in every order of visit:
    the result is nil exactly when the handler accepts every collected file,
    an error returned is the verdict of the handler on some collected file,
    and on a store without files the handler is not called at all. *)
Theorem X16_RangeFiles_verdict {S E : Type} (pkgs : PackagesDefinitions)
    (handle : string → FilePtr → S → S * option E)
    (check : string → FilePtr → option E) (s s' : S) (r : option E) :
  (∀ filename file s0, (handle filename file s0).2 = check filename file) →
  RangeFiles pkgs handle s (s', r) →
  (r = None ↔
   ∀ entry, entry ∈ rangeFiles pkgs →
            check (AstFileInfo_Path entry.2) entry.1 = None)
  ∧ (∀ err, r = Some err →
       ∃ entry, entry ∈ rangeFiles pkgs
                ∧ check (AstFileInfo_Path entry.2) entry.1 = Some err)
  ∧ (rangeFiles pkgs = [] → s' = s ∧ r = None).
Proof.
  intros Hcheck (order & Hperm & Hrun).
  assert (∀ err, r = Some err →
            ∃ entry, entry ∈ rangeFiles pkgs
                     ∧ check (AstFileInfo_Path entry.2) entry.1 = Some err)
    as Herr.
  { intros err ->.
    apply RangeFilesIn_stops in Hrun
      as (before & entry & after & sb & Horder & _ & Hentry).
    exists entry. split.
    - rewrite <- Hperm, Horder. apply elem_of_app. right. left.
    - by rewrite <- (Hcheck _ _ sb), Hentry. }
  split; [|split; [done|]].
  - split.
    + intros ->. apply RangeFilesIn_all in Hrun as [_ Hall].
      intros entry Hin. rewrite <- Hperm in Hin.
      destruct (Hall entry Hin) as [se Hse]. by rewrite <- (Hcheck _ _ se).
    + intros Hall. destruct r as [err|]; [|done].
      destruct (Herr err eq_refl) as (entry & Hin & Hverdict).
      rewrite (Hall entry Hin) in Hverdict. done.
  - intros Hempty. rewrite Hempty in Hperm.
    apply Permutation_nil_r in Hperm as ->. by simplify_eq/=.
Qed.

Lemma X16_RangeFiles_verdict_witness :
  (RangeFilesIn (rangeFiles (theStore modelsStore))
     (λ filename _ (seen : list string),
        (filename :: seen,
         if decide (filename = "lib/models/user.go") then Some filename
         else None)) []).2
  = None ↔
  ∀ entry, entry ∈ rangeFiles (theStore modelsStore) →
    (if decide (AstFileInfo_Path entry.2 = "lib/models/user.go")
     then Some (AstFileInfo_Path entry.2) else None) = None.
Proof.
  refine (proj1 (X16_RangeFiles_verdict (theStore modelsStore)
    (λ filename _ (seen : list string),
       (filename :: seen,
        if decide (filename = "lib/models/user.go") then Some filename
        else None))
    (λ filename _, if decide (filename = "lib/models/user.go")
                   then Some filename else None)
    [] _ _ _ _)).
  - reflexivity.
  - exists (rangeFiles (theStore modelsStore)). split; [done|].
    apply surjective_pairing.
Defined.

(** ** The index and the local maps after a harvest *)

Lemma fullTypeName_inj (p1 n1 p2 n2 : string) :
  strings.ContainsRune p1 dot = false →
  strings.ContainsRune p2 dot = false →
  fullTypeName p1 n1 = fullTypeName p2 n2 → p1 = p2 ∧ n1 = n2.
Proof.
  unfold fullTypeName. revert p2.
  induction p1 as [|c1 p1 IH]; intros [|c2 p2]; simpl.
  - by intros _ _ [= ->].
  - intros _ Hc [= <- _]. by rewrite Ascii.eqb_refl in Hc.
  - intros Hc _ [= -> _]. by rewrite Ascii.eqb_refl in Hc.
  - destruct (Ascii.eqb c1 dot); [done|]. destruct (Ascii.eqb c2 dot); [done|].
    intros H1 H2 [= -> Heq]. by destruct (IH p2 H1 H2 Heq) as [-> ->].
Qed.

(** X17. After the harvest of a collection without conflicts on a fresh
    index, the keys of the index are exactly the keys of the type
    declarations of the collected files: nothing declared is missing, and
    nothing else is there. *)
Theorem X17_index_keys `{Primitives} (pkgs pkgs1 : PackagesDefinitions)
    (out : ParsedSchemas) (key : string) :
  uniqueDefinitions pkgs = Some ∅ →
  NonConflicting (rangeFiles pkgs ≫= workOf) →
  ParseTypes pkgs (Done (pkgs1, inl out)) →
  is_Some (map_get (uniqueDefinitions pkgs1) key) ↔
  ∃ f info t, (Some f, info) ∈ rangeFiles pkgs ∧ t ∈ typeSpecsOfFile f
              ∧ key = fullTypeName (File_Name f) (TypeSpec_Name t).
Proof.
  intros Hu Hnc Hrun. split.
  - destruct Hrun as (order & Hperm & Hrun). unfold ParseTypesIn in Hrun.
    rewrite forRange_parseFile in Hrun.
    pose proof (harvest_keeps
      (λ p, ∀ k, is_Some (map_get (uniqueDefinitions p) k) →
                 ∃ w, Some w ∈ order ≫= workOf ∧ k = FullName (definitionOf w))
      (order ≫= workOf) pkgs []) as Hinv.
    destruct (forRange parseWork _ _) as [[? ?]|[? ?]|]; simplify_eq.
    intros Hkey. destruct (Hinv) with key as (w & Hw & ->); try done.
    + intros k. unfold map_get. rewrite Hu. simpl. rewrite lookup_empty.
      by intros [? [=]].
    + intros w p ps p' ps' Hin Hold
        (_ & _ & _ & _ & unique & Hp & Hcase)%parseWork_effect k.
      destruct Hcase as [->|[Hp' _]]; [by auto|].
      unfold map_get in Hold |- *. rewrite Hp in Hold. simpl in Hold.
      destruct Hp' as [-> | ->]; simpl.
      * rewrite lookup_insert. case_decide; [by eauto|by auto].
      * rewrite lookup_delete. case_decide; [by intros [? [=]]|by auto].
    + destruct w as [[f info] t]. apply work_Some in Hw as [Hin Ht].
      rewrite Hperm in Hin. by exists f, info, t.
  - intros (f & info & t & Hin & Ht & ->).
    destruct (harvest_indexes_declaration pkgs pkgs1 out f info t)
      as (e & -> & _); by eauto.
Qed.

Lemma X17_index_keys_witness :
  is_Some (map_get (uniqueDefinitions cfgHarvested.1) "cfg.Config") ↔
  ∃ f info t, (Some f, info) ∈ rangeFiles (theStore cfgStore)
              ∧ t ∈ typeSpecsOfFile f
              ∧ "cfg.Config" = fullTypeName (File_Name f) (TypeSpec_Name t).
Proof.
  apply (X17_index_keys (H:=samplePrimitives) (theStore cfgStore)
           cfgHarvested.1 cfgHarvested.2 "cfg.Config").
  - reflexivity.
  - intros w1 w2 H1 H2 _. vm_compute in H1, H2.
    apply elem_of_cons in H1 as [H1|H1];
      [|apply elem_of_cons in H1 as [H1|H1];
        [|by apply not_elem_of_nil in H1]];
    (apply elem_of_cons in H2 as [H2|H2];
      [|apply elem_of_cons in H2 as [H2|H2];
        [|by apply not_elem_of_nil in H2]]);
    injection H1 as ->; injection H2 as ->; reflexivity.
  - exists (rangeFiles (theStore cfgStore)). split; [done|].
    vm_compute. reflexivity.
Defined.

Section LocalTruthFacts.
Context `{Primitives}.
Implicit Types (pkgs : PackagesDefinitions) (ps : ParsedSchemas).
Implicit Types (w : File * AstFileInfo * TypeSpec).
Implicit Types (ws : list (option (File * AstFileInfo * TypeSpec))).

Lemma parseWork_backs w pkgs ps pkgs' ps' :
  SoundIndex pkgs →
  strings.ContainsRune (File_Name w.1.1) dot = false →
  parseWork (Some w) (pkgs, ps) = Continue (pkgs', ps') →
  SoundIndex pkgs'
  ∧ (∀ pkgPath typeName,
       is_Some (findTypeSpec pkgPath typeName pkgs) →
       is_Some (findTypeSpec pkgPath typeName pkgs'))
  ∧ is_Some (findTypeSpec (TypeSpecDef_PkgPath (definitionOf w))
               (Name (definitionOf w)) pkgs').
Proof.
  intros Hsound Hdot Hstep.
  destruct (uniqueDefinitions pkgs) as [unique|] eqn:Hu.
  - destruct (parseWork_cases w pkgs ps unique Hu)
      as [another Hk Hp|unique' pkgs1 Hcase Hw|Hpanic]; simplify_eq.
    + split; [done|]. split; [done|].
      destruct (Hsound (FullName (definitionOf w)) another)
        as (Hkey & Hdot' & Hbacked); [by unfold map_get; rewrite Hu|].
      apply fullTypeName_inj in Hkey as [_ Hname]; [|done..].
      by rewrite <- Hp, <- Hname.
    + assert (∀ pkgPath typeName,
                findTypeSpec pkgPath typeName pkgs' =
                if decide (pkgPath = TypeSpecDef_PkgPath (definitionOf w)
                           ∧ typeName = Name (definitionOf w))
                then Some (definitionOf w)
                else findTypeSpec pkgPath typeName pkgs) as Hfind.
      { intros pkgPath typeName.
        apply (writeTypeDefinition_lookup _ _ _ pkgPath typeName Hw). }
      assert (∀ pkgPath typeName,
                is_Some (findTypeSpec pkgPath typeName pkgs) →
                is_Some (findTypeSpec pkgPath typeName pkgs')) as Hgrow.
      { intros pkgPath typeName Hold.
        pose proof (Hfind pkgPath typeName) as ->.
        case_decide; [by eauto|done]. }
      apply writeTypeDefinition_Done in Hw as (?&?& _ & _ & _ & Hu' & _).
      assert (is_Some (findTypeSpec (TypeSpecDef_PkgPath (definitionOf w))
                         (Name (definitionOf w)) pkgs')) as Hnew.
      { pose proof (Hfind (TypeSpecDef_PkgPath (definitionOf w))
                      (Name (definitionOf w))) as ->.
        rewrite decide_True by done. by eauto. }
      split; [|done].
      intros k e. unfold map_get. rewrite Hu'. simpl.
      assert (unique !! k = Some e →
              FullName e = k
              ∧ strings.ContainsRune (File_Name (TypeSpecDef_File e)) dot = false
              ∧ is_Some (findTypeSpec (TypeSpecDef_PkgPath e) (Name e) pkgs'))
        as Hold.
      { intros He. destruct (Hsound k e) as (? & ? & ?);
          [by unfold map_get; rewrite Hu|]. by auto. }
      destruct Hcase as [[_ ->]|[_ ->]].
      * rewrite lookup_insert. case_decide; [|done]. by intros [= <-].
      * rewrite lookup_delete. by case_decide.
  - destruct w as [[astFile info] typeSpec]. unfold parseWork in Hstep.
    cbn [fst snd] in Hstep. by rewrite parseTypeSpec_nil in Hstep.
Qed.

Lemma pass_backs_declarations ws pkgs ps pkgs' ps' :
  SoundIndex pkgs →
  (∀ w, Some w ∈ ws → strings.ContainsRune (File_Name w.1.1) dot = false) →
  forRange parseWork ws (pkgs, ps) = Continue (pkgs', ps') →
  SoundIndex pkgs'
  ∧ (∀ pkgPath typeName,
       is_Some (findTypeSpec pkgPath typeName pkgs) →
       is_Some (findTypeSpec pkgPath typeName pkgs'))
  ∧ ∀ w, Some w ∈ ws →
      is_Some (findTypeSpec (TypeSpecDef_PkgPath (definitionOf w))
                 (Name (definitionOf w)) pkgs').
Proof.
  revert pkgs ps. induction ws as [|x ws IH]; intros pkgs ps Hsound Hdots Hrun.
  { simplify_eq/=. split; [done|]. split; [done|].
    by intros ? ?%not_elem_of_nil. }
  cbn [forRange] in Hrun. destruct x as [w|]; [|done].
  destruct (parseWork (Some w) (pkgs, ps)) as [[pkgs1 ps1]| |] eqn:Hstep;
    [|done..].
  apply parseWork_backs in Hstep as (Hsound1 & Hgrow1 & Hw);
    [|done|by apply Hdots; left].
  destruct (IH pkgs1 ps1) as (Hsound' & Hgrow & Hall); try done.
  { intros w' Hw'. apply Hdots. by right. }
  split; [done|]. split; [by auto|].
  intros w' [[= ->]|Hw']%elem_of_cons; by auto.
Qed.

End LocalTruthFacts.

(** X18. The local maps answer for every declaration. After a harvest
    that started on a fresh index and returned normally, over files whose
    package names have no dot, every type declared in a collected file has a
    definition in the local map of the package path the file was collected
    under, under its declared name: also when the index dropped its key on a
    collision, and also when the write of the declaration itself was
    skipped as a repeat. *)
Theorem X18_local_truth `{Primitives} (pkgs pkgs1 : PackagesDefinitions)
    (out : ParsedSchemas) (f : File) (info : AstFileInfo) (t : TypeSpec) :
  uniqueDefinitions pkgs = Some ∅ →
  (∀ entry g, entry ∈ rangeFiles pkgs → entry.1 = Some g →
              strings.ContainsRune (File_Name g) dot = false) →
  ParseTypes pkgs (Done (pkgs1, inl out)) →
  (Some f, info) ∈ rangeFiles pkgs → t ∈ typeSpecsOfFile f →
  is_Some (findTypeSpec (AstFileInfo_PackagePath info) (TypeSpec_Name t) pkgs1).
Proof.
  intros Hu Hdots (order & Hperm & Hrun) Hin Ht. unfold ParseTypesIn in Hrun.
  rewrite forRange_parseFile in Hrun.
  destruct (forRange parseWork (order ≫= workOf) (pkgs, []))
    as [[pkgs1' out1']|[? ?]|] eqn:Hpass; simplify_eq.
  apply pass_backs_declarations in Hpass as (_ & _ & Hall).
  - apply (Hall (f, info, t)), work_Some. by rewrite Hperm.
  - intros k e. unfold map_get. by rewrite Hu.
  - intros [[g i] t'] [Hg _]%work_Some. rewrite Hperm in Hg.
    by apply (Hdots (Some g, i) g).
Qed.

Lemma X18_local_truth_witness :
  is_Some (findTypeSpec "app/cfg" "Config" cfgHarvested.1).
Proof.
  apply (X18_local_truth (H:=samplePrimitives) (theStore cfgStore)
           cfgHarvested.1 cfgHarvested.2 cfgWindows cfgWindowsDecl.1.2
           cfgWindowsDecl.2).
  - reflexivity.
  - intros entry g Hin Hg. vm_compute in Hin.
    apply elem_of_cons in Hin as [->|Hin];
      [|apply elem_of_cons in Hin as [->|Hin];
        [|by apply not_elem_of_nil in Hin]];
    injection Hg as <-; reflexivity.
  - exists (rangeFiles (theStore cfgStore)). split; [done|].
    vm_compute. reflexivity.
  - vm_compute. left.
  - vm_compute. left.
Defined.

(** * Keys declared more than once *)

(** ** Keys with two declarations *)





Section CompetitorFacts.
Context `{Primitives}.
Implicit Types (pkgs : PackagesDefinitions) (ps : ParsedSchemas).
Implicit Types (w : File * AstFileInfo * TypeSpec).
Implicit Types (ws : list (option (File * AstFileInfo * TypeSpec))).








End CompetitorFacts.

(** ** The Global Index on a collision *)




(** ** Two packages with the same short name *)


